(** * ons-cpi-microdata: fixed-width extraction and shop-code reconciliation

    A shallow embedding of [src/parse_spreadsheets.py]: the text layer
    (slicing and stripping), the [DataframeParser] methods [parse_df],
    [run_shop_code_transition] and its helpers, [out_file] and [run],
    [find_files], and the loop of [main].  Reading and writing files stay
    outside: what is read is an argument, what is written a result.

    Conventions of the embedding.
    - A Python [str] is a [string]; each character stands for one code
      point below 256, and [String.length] is Python's [len].
    - A pandas cell is a [cell]: a [str] or an [int] (a Python integer;
      fixed-width arithmetic is never reached on the frames [parse_df]
      builds, whose cells are strings).  Floats and NaN are outside the
      model.
    - A [DataFrame] is the list of its rows in index order, each row a finite
      map from column label to cell.  Every frame handled here has the
      default index [0 .. n-1] (it is reset after boolean indexing), so
      pandas' alignment on the index is alignment on the position.  A frame
      without rows stands for the empty frame that has the columns asked of
      it.
    - A Python exception is [None]. *)

From Stdlib Require Import Ascii String.
From stdpp Require Import gmap strings list fin_maps pretty.

Open Scope string_scope.
Open Scope list_scope.
Open Scope nat_scope.

(** ** Text *)

Module Text.

(** [str.isspace] on the code points below 256: TAB..CR, FS..US and the
    space, NEL (0x85) and NBSP (0xA0). *)
Definition isspace (c : ascii) : bool :=
  let n := nat_of_ascii c in
  ((9 <=? n)%nat && (n <=? 13)%nat) || ((28 <=? n)%nat && (n <=? 32)%nat)
  || (n =? 133)%nat || (n =? 160)%nat.

(** [s[a:b]] for [0 <= a] and [0 <= b]: the characters at the positions
    [a .. min b (len s) - 1]; never raises. *)
Definition slice (a b : nat) (s : string) : string :=
  substring a (b - a) s.

Fixpoint lstrip (s : string) : string :=
  match s with
  | EmptyString => EmptyString
  | String c s' => if isspace c then lstrip s' else s
  end.

Fixpoint rstrip (s : string) : string :=
  match s with
  | EmptyString => EmptyString
  | String c s' =>
      match rstrip s' with
      | EmptyString => if isspace c then EmptyString else String c EmptyString
      | t => String c t
      end
  end.

(** [s.strip()] *)
Definition strip (s : string) : string := rstrip (lstrip s).

End Text.

(** ** Cells and series *)

Inductive cell : Type :=
  | CStr (s : string)
  | CInt (z : Z).

Global Instance cell_eq_dec : EqDecision cell.
Proof. solve_decision. Defined.

Abbreviation Series := (list cell).
Abbreviation Row := (gmap string cell).
Abbreviation DataFrame := (list (gmap string cell)).

(** [str(x)] of one cell, the element-wise step of [astype(str)]. *)
Definition to_str (x : cell) : string :=
  match x with
  | CStr s => s
  | CInt z => pretty z
  end.

Definition astype_str (s : Series) : Series := (fun x => CStr (to_str x)) <$> s.

(** [x + y] of two cells: concatenation of strings, sum of integers, and
    [TypeError] between a string and an integer. *)
Definition cell_add (x y : cell) : option cell :=
  match x, y with
  | CStr a, CStr b => Some (CStr (a +:+ b))
  | CInt a, CInt b => Some (CInt (a + b))
  | _, _ => None
  end.

(** ** Frames *)

(** [df[col]]: [KeyError] when a row has no such column. *)
Definition df_get (col : string) (df : DataFrame) : option Series :=
  mapM (fun r : Row => r !! col) df.

(** [df[col] = s] for a series [s] on the index of [df]. *)
Definition df_set (col : string) (s : Series) (df : DataFrame) : DataFrame :=
  zip_with (fun (r : Row) (x : cell) => <[col := x]> r) df s.

(** [s[mask]] and [df[mask].reset_index(drop=True)]. *)
Fixpoint select {A : Type} (mask : list bool) (l : list A) : list A :=
  match mask, l with
  | b :: mask', x :: l' => if b then x :: select mask' l' else select mask' l'
  | _, _ => []
  end.

(** [df.drop(columns=[col])]: [KeyError] when the column is absent. *)
Definition df_drop (col : string) (df : DataFrame) : option DataFrame :=
  _ ← df_get col df; Some (delete col <$> df).

(** ** [DataframeParser.parse_df] *)

Definition column_to_str_index_mapping : list (string * (nat * nat)) :=
  [ ("quote_date", (0, 6));
    ("item_id", (6, 12));
    ("location", (12, 17));
    ("shop_code", (17, 21));
    ("prod_size", (21, 37));
    ("prod_measure_id", (37, 39));
    ("attribute2", (39, 119));
    ("attribute3", (119, 199));
    ("attribute4", (199, 279));
    ("attribute5", (279, 359));
    ("attribute6", (359, 439)) ].

(** The loaded frame has the single column [0] of raw records; [raw] is
    that column.  [df_parsed] starts without rows and takes the index of the
    first series assigned to it, one row per record; the loop then assigns
    the stripped slices column by column. *)
Definition parse_df (raw : list string) : DataFrame :=
  foldl (fun df_parsed '(column, str_slice) =>
           let sliced_str := Text.slice (fst str_slice) (snd str_slice) <$> raw in
           df_set column ((fun s => CStr (Text.strip s)) <$> sliced_str) df_parsed)
        ((fun _ => (∅ : Row)) <$> raw)
        column_to_str_index_mapping.

(** The row [parse_df] leaves for one record: the loop body seen from a
    single index. *)
Definition parse_row (record : string) : Row :=
  foldl (fun (row : Row) '(column, str_slice) =>
           <[column := CStr (Text.strip (Text.slice (fst str_slice) (snd str_slice) record))]> row)
        ∅ column_to_str_index_mapping.

(** ** Series operations used by the reconciliation *)

(** [a + b] on two columns of one frame, element by element. *)
Definition series_add (a b : Series) : option Series :=
  mapM (fun p : cell * cell => cell_add p.1 p.2) (zip a b).

(** [duplicated(keep=False)] on one column: a row is marked when another row
    holds an equal cell. *)
Definition duplicated (s : Series) : list bool :=
  imap (fun i x => bool_decide (x ∈ delete i s)) s.

(** [s.isin(values)] *)
Definition isin (s values : Series) : list bool :=
  (fun x => bool_decide (x ∈ values)) <$> s.

(** One step of a list replacement: the cells under [mask] become [value]. *)
Definition putmask (s : Series) (mask : list bool) (value : cell) : Series :=
  zip_with (fun x (b : bool) => if b then value else x) s mask.

(** [s.replace(to_replace=src, value=dst)] for two lists of one length (here
    two columns of one frame): pandas computes the mask of every source
    value on the original cells, then applies the pairs in order. *)
Definition series_replace (to_replace value s : Series) : Series :=
  let masks := (fun src => (fun x => bool_decide (x = src)) <$> s) <$> to_replace in
  foldl (fun cur md => putmask cur md.1 md.2) s (zip masks value).

(** [dst.loc[mask] = src.loc[mask]] on two columns of one frame. *)
Definition loc_assign (mask : list bool) (src dst : Series) : Series :=
  zip_with (fun (b : bool) (p : cell * cell) => if b then p.1 else p.2)
           mask (zip src dst).

(** ** [DataframeParser] *)

Record DataframeParser : Type := mkParser {
  df : DataFrame;
  df_transition : DataFrame;
  map_from : string;
  map_to : string;
  new_col_name : option string
}.

(** [self.df = d] *)
Definition with_df (d : DataFrame) (self : DataframeParser) : DataframeParser :=
  mkParser d (df_transition self) (map_from self) (map_to self) (new_col_name self).

Definition item_key_col (self : DataframeParser) : option Series :=
  shop ← df_get "shop_code" (df self);
  loc ← df_get "location" (df self);
  item ← df_get "item_id" (df self);
  shop_loc ← series_add shop loc;
  series_add shop_loc item.

Definition _drop_duplicates_on_character_len (shop_code_len : nat)
    (self : DataframeParser) : option DataframeParser :=
  key ← df_get (map_from self) (df self);
  let duplicates := duplicated key in
  shop ← df_get "shop_code" (df self);
  let shop_code_is_4_chars :=
    (fun x => bool_decide (String.length (to_str x) = shop_code_len)) <$> shop in
  let mask := zip_with (fun d f : bool => negb (d && f)) duplicates shop_code_is_4_chars in
  Some (with_df (select mask (df self)) self).

Definition _cast_columns (col : string) (self : DataframeParser) : option DataframeParser :=
  c ← df_get col (df self);
  let df1 := df_set col (astype_str c) (df self) in
  t ← df_get col (df_transition self);
  let tr1 := df_set col (astype_str t) (df_transition self) in
  Some (mkParser df1 tr1 (map_from self) (map_to self) (new_col_name self)).

(** The column label [None] (a helper called before
    [run_shop_code_transition] has named the new column) is outside the
    model.  The in-place [replace] on [self.df[new_col_name]] writes through
    to the frame. *)
Definition _map_shop_codes (map_from map_to : string) (self : DataframeParser)
    : option DataframeParser :=
  new ← new_col_name self;
  c ← df_get map_from (df self);
  let df1 := df_set new c (df self) in
  col ← df_get new df1;
  to_replace ← df_get map_from (df_transition self);
  value ← df_get map_to (df_transition self);
  Some (with_df (df_set new (series_replace to_replace value col) df1) self).

Definition _backfill_unmatched_values (fill_unmatched_with : string)
    (self : DataframeParser) : option DataframeParser :=
  new ← new_col_name self;
  col ← df_get new (df self);
  key ← df_get (map_from self) (df self);
  let mask := isin col key in
  fill ← df_get fill_unmatched_with (df self);
  Some (with_df (df_set new (loc_assign mask fill col) (df self)) self).

Definition run_shop_code_transition (self : DataframeParser) : option DataframeParser :=
  let self := mkParser (df self) (df_transition self) (map_from self) (map_to self)
                       (Some "actual shop") in
  key ← item_key_col self;
  let self := with_df (df_set (map_from self) key (df self)) self in
  self ← _drop_duplicates_on_character_len 4 self;
  self ← _cast_columns (map_from self) self;
  self ← _map_shop_codes (map_from self) (map_to self) self;
  self ← _backfill_unmatched_values "shop_code" self;
  d ← df_drop (map_from self) (df self);
  Some (with_df d self).

(** The parser as [main] builds it. *)
Definition new_parser (d transition : DataFrame) : DataframeParser :=
  mkParser d transition "KEY" "Shop Code" None.

(** ** Closed forms

    What the steps of [run_shop_code_transition] compute, written as
    functions of the columns they read; the properties relate them to the
    methods above. *)

(** The composite key of one row: [shop_code + location + item_id]. *)
Definition row_key (r : Row) : option cell :=
  shop ← r !! "shop_code"; loc ← r !! "location"; item ← r !! "item_id";
  shop_loc ← cell_add shop loc; cell_add shop_loc item.

(** How often a cell occurs in a column. *)
Definition occurrences (x : cell) (s : Series) : nat :=
  length (filter (fun y => y = x) s).

(** The replacement of one cell [x]: [cur] is what the cell holds so far,
    and every pair whose source equals [x] overwrites it in turn. *)
Definition replace_cell (pairs : list (cell * cell)) (x cur : cell) : cell :=
  foldl (fun cur (sd : cell * cell) => if bool_decide (x = sd.1) then sd.2 else cur) cur pairs.

(** The mask of [_drop_duplicates_on_character_len]. *)
Definition keep_mask (key shop : Series) : list bool :=
  zip_with (fun d f : bool => negb (d && f)) (duplicated key)
           ((fun x => bool_decide (String.length (to_str x) = 4)) <$> shop).

(** The new column after [_map_shop_codes] and
    [_backfill_unmatched_values], from the key and shop-code columns of the
    surviving rows and the two columns of the transition table. *)
Definition reconciled (tk tv key shop : Series) : Series :=
  let key := astype_str key in
  let col := series_replace (astype_str tk) tv key in
  loc_assign (isin col key) shop col.

(** The parser after a pass. *)
Definition run_result (d tr : DataFrame) (key shop tk tv : Series) : DataframeParser :=
  let mask := keep_mask key shop in
  mkParser (df_set "actual shop" (reconciled tk tv (select mask key) (select mask shop))
                   (delete "KEY" <$> select mask d))
           (df_set "KEY" (astype_str tk) tr) "KEY" "Shop Code" (Some "actual shop").

(** The position a row kept by [mask] takes in the selected frame: the
    number of rows kept before it. *)
Definition rank (mask : list bool) (i : nat) : nat :=
  length (filter (fun b : bool => b = true) (take i mask)).

(** ** [find_files] *)

(** [str.rfind(c)]: the index of the last occurrence, [None] for [-1]. *)
Fixpoint rfind (c : ascii) (s : string) : option nat :=
  match s with
  | EmptyString => None
  | String x s' =>
      match rfind c s' with
      | Some i => Some (S i)
      | None => if Ascii.eqb x c then Some 0 else None
      end
  end.

(** [PurePath.stem] of a path whose final component is [name]. *)
Definition stem (name : string) : string :=
  match rfind "." name with
  | Some i =>
      if ((0 <? i)%nat && (i <? String.length name - 1)%nat)%bool
      then substring 0 i name else name
  | None => name
  end.

(** [s.split(sep)] for a one-character separator. *)
Fixpoint split (sep : ascii) (s : string) : list string :=
  match s with
  | EmptyString => [EmptyString]
  | String c s' =>
      if Ascii.eqb c sep then EmptyString :: split sep s'
      else match split sep s' with
           | t :: ts => String c t :: ts
           | [] => [String c EmptyString]
           end
  end.

Record datetime : Type := mkDatetime {
  year : nat; month : nat; day : nat;
  hour : nat; minute : nat; second : nat; microsecond : nat
}.

Fixpoint lex_leb (a b : list nat) : bool :=
  match a, b with
  | x :: a', y :: b' => (x <? y)%nat || ((x =? y)%nat && lex_leb a' b')
  | [], _ => true
  | _ :: _, [] => false
  end.

(** [a <= b] on naive datetimes. *)
Definition datetime_leb (a b : datetime) : bool :=
  lex_leb [year a; month a; day a; hour a; minute a; second a; microsecond a]
          [year b; month b; day b; hour b; minute b; second b; microsecond b].

Definition digit (c : ascii) : option nat :=
  let n := nat_of_ascii c in
  if ((48 <=? n)%nat && (n <=? 57)%nat)%bool then Some (n - 48) else None.

(** The directive [%Y] is the pattern [\d\d\d\d]. *)
Definition match_Y (s : string) : option (nat * string) :=
  match s with
  | String c1 (String c2 (String c3 (String c4 rest))) =>
      d1 ← digit c1; d2 ← digit c2; d3 ← digit c3; d4 ← digit c4;
      Some (1000 * d1 + 100 * d2 + 10 * d3 + d4, rest)
  | _ => None
  end.

(** The directive [%m] is the pattern [1[0-2]|0[1-9]|[1-9]]: the first
    alternative that matches a prefix is taken.  [match_m_1_9] is the last
    alternative. *)
Definition match_m_1_9 (s : string) : option (nat * string) :=
  match s with
  | String c rest => d ← digit c; if 1 <=? d then Some (d, rest) else None
  | EmptyString => None
  end.

Definition match_m (s : string) : option (nat * string) :=
  match s with
  | String c1 (String c2 rest) =>
      match digit c1, digit c2 with
      | Some 1, Some d2 => if d2 <=? 2 then Some (10 + d2, rest) else match_m_1_9 s
      | Some 0, Some d2 => if 1 <=? d2 then Some (d2, rest) else match_m_1_9 s
      | _, _ => match_m_1_9 s
      end
  | _ => match_m_1_9 s
  end.

(** [datetime.datetime.strptime(s, "%Y%m")]: the pattern must match at the
    start of [s], nothing may remain after it, and the year must be one
    [datetime] accepts; [None] is [ValueError]. *)
Definition strptime_Ym (s : string) : option datetime :=
  '(y, rest) ← match_Y s;
  '(m, rest) ← match_m rest;
  match rest with
  | EmptyString => if (1 <=? y)%nat then Some (mkDatetime y m 1 0 0 0 0) else None
  | _ => None
  end.

(** [files_searched] is the listing [dir_in.glob(file_pattern)] yields, each
    path given by its final component. *)
Definition find_files (files_searched : list string) (date_start date_stop : datetime)
    : list string :=
  foldl (fun (files_to_clean : list string) f =>
           let date := List.last (split "_" (stem f)) EmptyString in
           match strptime_Ym date with
           | None => files_to_clean
           | Some date_fmt =>
               if (datetime_leb date_start date_fmt && datetime_leb date_fmt date_stop)%bool
               then (files_to_clean ++ [f])%list else files_to_clean
           end)
        [] files_searched.

(** The date [find_files] reads off a file name, and its test on it. *)
Definition date_of (f : string) : option datetime :=
  strptime_Ym (List.last (split "_" (stem f)) EmptyString).

Definition selected (date_start date_stop : datetime) (f : string) : bool :=
  match date_of f with
  | Some date_fmt => datetime_leb date_start date_fmt && datetime_leb date_fmt date_stop
  | None => false
  end.

(** ** Sample data *)

(** A full-width record: the populated head of a line, padded to 439
    characters. *)
Definition full_record : string :=
  "201707000123 1005A12Xsmall           01"
  +:+ string_of_list_ascii (replicate 400 "a"%char).

(** Short records: shop code [A12X] at location [1005] without an item
    id; shop code [ZZZZ] at location [0001] with item id [9]; two records
    that carry a shop code only; and shop code [1234] at location [5]. *)
Definition record_matched : string := "201707       1005A12X".
Definition record_unmatched : string := "201707     9 0001ZZZZ".
Definition record_bare_007 : string := "201707           007".
Definition record_bare_ZZZZ : string := "201707           ZZZZ".
Definition record_digits : string := "201707          51234".
Definition transition_example : DataFrame :=
  [ {[ "KEY" := CStr "A12X1005"; "Shop Code" := CStr "007" ]} ].
Definition transition_int : DataFrame :=
  [ {[ "KEY" := CInt 12345; "Shop Code" := CStr "007" ]} ].

Definition sample_records : list string :=
  [record_unmatched; record_unmatched; record_bare_007; record_bare_007;
   record_matched].

Definition sample_frame : DataFrame := parse_df sample_records.

(** The composite keys and the shop codes of [sample_frame]. *)
Definition sample_key : Series :=
  [CStr "ZZZZ00019"; CStr "ZZZZ00019"; CStr "007"; CStr "007"; CStr "A12X1005"].

Definition sample_shop : Series :=
  [CStr "ZZZZ"; CStr "ZZZZ"; CStr "007"; CStr "007"; CStr "A12X"].

(** ** Statements compared with the code *)

(** A row whose composite key is not among the keys of the transition
    table (compared as strings, the way the lookup compares them) ends with
    its own shop code. *)
Definition fallback_holds (tr : DataFrame) (p' : DataframeParser) : Prop :=
  ∀ j r' k, df p' !! j = Some r' → row_key r' = Some k →
    (∀ tk, df_get "KEY" tr = Some tk → to_str k ∉ to_str <$> tk) →
    r' !! "actual shop" = r' !! "shop_code".

(** No final value equals the composite key of a row the transition table
    has no entry for. *)
Definition no_raw_key_left (tr : DataFrame) (p' : DataframeParser) : Prop :=
  ∀ j r' j2 r2 k2, df p' !! j = Some r' →
    df p' !! j2 = Some r2 → row_key r2 = Some k2 →
    (∀ tk, df_get "KEY" tr = Some tk → to_str k2 ∉ to_str <$> tk) →
    r' !! "actual shop" ≠ Some (CStr (to_str k2)).

(** Both columns of the transition table hold after the pass what they held
    before it. *)
Definition transition_untouched (tr : DataFrame) (p' : DataframeParser) : Prop :=
  df_get "KEY" (df_transition p') = df_get "KEY" tr ∧
  df_get "Shop Code" (df_transition p') = df_get "Shop Code" tr.

(** ** Extracted values *)

(** A string without whitespace at either end. *)
Definition trimmed (s : string) : Prop :=
  s = EmptyString ∨
  ∃ c c', get 0 s = Some c ∧ Text.isspace c = false ∧
          get (String.length s - 1) s = Some c' ∧ Text.isspace c' = false.

(** What [sliced_str] holds for one record on each turn of the loop of
    [parse_df]: the unstripped slices, in the order of the offset table. *)
Definition raw_fields (record : string) : list string :=
  (fun '(_, str_slice) => Text.slice (fst str_slice) (snd str_slice) record)
    <$> column_to_str_index_mapping.

(** ** Paths, [run] and [main] *)

(** [PurePath.suffix] of a path whose final component is [name]. *)
Definition suffix (name : string) : string :=
  match rfind "." name with
  | Some i =>
      if ((0 <? i)%nat && (i <? String.length name - 1)%nat)%bool
      then substring i (String.length name - i) name else EmptyString
  | None => EmptyString
  end.

(** A path: its directory and its final component. *)
Record PurePath : Type := mkPath { parent : string; name : string }.

(** [DataframeParser.out_file], for a [file_out_suffix] without a path
    separator. *)
Definition out_file (out_dir : string) (filename : PurePath) (file_out_suffix : string)
    : PurePath :=
  mkPath out_dir (stem (name filename) +:+ file_out_suffix +:+ suffix (name filename)).

(** [DataframeParser.run] without its file access: [raw] is the single
    column of the frame [load_df] returns, and [df] of the result is the
    frame [write_df] is called on. *)
Definition run (raw : list string) (self : DataframeParser) : option DataframeParser :=
  let self := with_df (parse_df raw) self in
  run_shop_code_transition self.

(** One iteration of the loop of [main] on the file [f]: a parser is built
    on the table object shared by all iterations, which [_cast_columns]
    updates in place, and is run.  [load f] is the column of records of the
    file ([None] when reading it raises); [written] collects, file by file,
    [out_file] and the frame [write_df] is called on. *)
Definition main_step (dir_in dir_out : string) (load : string → option (list string))
    (file_out_suffix : string)
    (state : list (PurePath * DataFrame) * DataFrame) (f : string)
    : option (list (PurePath * DataFrame) * DataFrame) :=
  let '(written, transition) := state in
  raw ← load f;
  self ← run raw (new_parser [] transition);
  Some (written ++ [(out_file dir_out (mkPath dir_in f) file_out_suffix, df self)],
        df_transition self).

(** [main] without its file access.  [listing] is what
    [dir_in.glob(file_pattern)] yields, [df_transition] the table read from
    the workbook, and [dir_out] the output directory after it has been joined
    to [dir_in].  An unparseable date bound raises before any file is
    touched.  The result lists what the loop handed to [write_df] (which may
    still skip a file that exists) and gives the table as the loop leaves
    it. *)
Definition main (dir_in dir_out : string) (listing : list string)
    (load : string → option (list string))
    (date_start date_stop : string) (df_transition : DataFrame)
    (file_out_suffix : string)
    : option (list (PurePath * DataFrame) * DataFrame) :=
  date_start ← strptime_Ym date_start;
  date_stop ← strptime_Ym date_stop;
  let files_to_clean := find_files listing date_start date_stop in
  foldl (fun acc f => state ← acc; main_step dir_in dir_out load file_out_suffix state f)
        (Some ([], df_transition)) files_to_clean.

(** The tables the loop of [main] can hold: the table it was given, or that
    table with its keys cast. *)
Definition table_state (tr cur : DataFrame) : Prop :=
  cur = tr ∨ ∃ tk, df_get "KEY" tr = Some tk ∧ cur = df_set "KEY" (astype_str tk) tr.

(** A transition table that pairs the key [A12X1005] twice. *)
Definition transition_twice : DataFrame :=
  [ {[ "KEY" := CStr "A12X1005"; "Shop Code" := CStr "001" ]};
    {[ "KEY" := CStr "A12X1005"; "Shop Code" := CStr "007" ]} ].

(** A listing and the records of its files, for the examples. *)
Definition sample_listing : list string :=
  ["Product_descriptions_201707.xlsx"; "Product_descriptions_201708.xlsx";
   "Product_descriptions_202013.xlsx"; "notes.txt"].

Definition sample_load (f : string) : option (list string) :=
  if String.eqb f "Product_descriptions_201707.xlsx"
  then Some [record_matched; record_unmatched]
  else if String.eqb f "Product_descriptions_201708.xlsx"
  then Some sample_records
  else None.

(** * Properties *)

(** ** Slicing and stripping *)

Section text_facts.
Import Text.

Lemma length_substring a n s :
  String.length (substring a n s) = Nat.min n (String.length s - a).
Proof.
  revert a n. induction s as [|c s IH]; intros [|a] [|n];
    cbn [substring String.length]; rewrite ?IH; lia.
Qed.

Lemma length_slice a b s :
  String.length (slice a b s) = Nat.min (b - a) (String.length s - a).
Proof. apply length_substring. Qed.

Lemma length_slice_le a b s : String.length (slice a b s) ≤ b - a.
Proof. rewrite length_slice. lia. Qed.


(** A slice that runs past the end of the record is the rest of the
    record from [a] on. *)
Lemma substring_past_end a n m s :
  String.length s - a ≤ n → String.length s - a ≤ m →
  substring a n s = substring a m s.
Proof.
  revert a n m. induction s as [|c s IH]; intros a n m Hn Hm.
  - by destruct a, n, m.
  - destruct a as [|a]; simpl in *.
    + destruct n as [|n], m as [|m]; try lia. f_equal. apply IH; lia.
    + apply IH; lia.
Qed.

Lemma slice_past_end a b s :
  String.length s ≤ b → slice a b s = substring a (String.length s - a) s.
Proof. intros Hb. apply substring_past_end; lia. Qed.

Lemma substring_empty a n s : String.length s ≤ a → substring a n s = EmptyString.
Proof.
  revert a n. induction s as [|c s IH]; intros a n Ha.
  - by destruct a, n.
  - destruct a as [|a]; simpl in *; [lia|]. apply IH; lia.
Qed.

Lemma length_lstrip s : String.length (lstrip s) ≤ String.length s.
Proof. induction s as [|c s IH]; simpl; [done|]. destruct (isspace c); simpl; lia. Qed.

Lemma length_rstrip s : String.length (rstrip s) ≤ String.length s.
Proof.
  induction s as [|c s IH]; simpl; [done|].
  destruct (rstrip s); [destruct (isspace c)|]; simpl in *; lia.
Qed.

Lemma length_strip s : String.length (strip s) ≤ String.length s.
Proof. unfold strip. pose proof (length_rstrip (lstrip s)). pose proof (length_lstrip s). lia. Qed.

Lemma lstrip_same_length s : String.length (lstrip s) = String.length s → lstrip s = s.
Proof.
  destruct s as [|c s]; simpl; [done|]. destruct (isspace c); [|done].
  pose proof (length_lstrip s). lia.
Qed.

Lemma rstrip_same_length s : String.length (rstrip s) = String.length s → rstrip s = s.
Proof.
  induction s as [|c s IH]; simpl; [done|].
  pose proof (length_rstrip s) as Hle.
  destruct (rstrip s) as [|c' t] eqn:E.
  - destruct (isspace c); simpl; [lia|]. intros H.
    destruct s; [done|simpl in *; lia].
  - simpl. intros H. f_equal. apply IH. simpl. lia.
Qed.

Lemma strip_same_length s : String.length (strip s) = String.length s → strip s = s.
Proof.
  unfold strip. intros H.
  pose proof (length_rstrip (lstrip s)). pose proof (length_lstrip s).
  assert (lstrip s = s) as Hl by (apply lstrip_same_length; lia).
  rewrite Hl in *. by apply rstrip_same_length.
Qed.
End text_facts.

(** ** Frames *)

Section frame_facts.
Implicit Types (d : DataFrame) (s : Series) (r : Row) (c : string) (m : list bool).

Lemma df_get_length c d s : df_get c d = Some s → length s = length d.
Proof. intros H. symmetry. by eapply length_mapM. Qed.

Lemma df_get_lookup c d s i r :
  df_get c d = Some s → d !! i = Some r → r !! c = s !! i.
Proof.
  intros H Hr. apply mapM_Some_1 in H.
  destruct (Forall2_lookup_l _ _ _ _ _ H Hr) as (x & -> & ->). done.
Qed.

Lemma df_set_lookup c s d i r x :
  d !! i = Some r → s !! i = Some x → df_set c s d !! i = Some (<[c := x]> r).
Proof. intros Hr Hx. unfold df_set. rewrite lookup_zip_with, Hr. simpl. by rewrite Hx. Qed.

Lemma length_df_set c s d : length s = length d → length (df_set c s d) = length d.
Proof. intros H. unfold df_set. rewrite length_zip_with. lia. Qed.

Lemma df_get_set_eq c s d : length s = length d → df_get c (df_set c s d) = Some s.
Proof.
  intros Hlen. apply mapM_Some_2. unfold df_set.
  revert s Hlen. induction d as [|r d IH]; intros [|x s] Hlen; simplify_eq/=.
  - constructor.
  - constructor; [by rewrite lookup_insert_eq|]. by apply IH.
Qed.

Lemma df_get_set_ne c c' s d :
  c ≠ c' → length s = length d → df_get c (df_set c' s d) = df_get c d.
Proof.
  intros Hne Hlen. unfold df_get, df_set.
  revert s Hlen. induction d as [|r d IH]; intros [|x s] Hlen; simplify_eq/=; [done|].
  rewrite lookup_insert_ne by done. by rewrite IH.
Qed.

Lemma select_zip_with {A B C} (f : A → B → C) m (l : list A) (k : list B) :
  select m (zip_with f l k) = zip_with f (select m l) (select m k).
Proof.
  revert l k. induction m as [|b m IH]; intros [|x l] [|y k]; simpl; try done.
  - by destruct b, (select m l).
  - destruct b; simpl; by rewrite IH.
Qed.

Lemma select_df_set c s d m : select m (df_set c s d) = df_set c (select m s) (select m d).
Proof. apply select_zip_with. Qed.

Lemma length_select {A B} m (l : list A) (k : list B) :
  length l = length k → length (select m l) = length (select m k).
Proof.
  revert l k. induction m as [|b m IH]; intros [|x l] [|y k] H; simplify_eq/=; try done.
  destruct b; simpl; by rewrite (IH l k).
Qed.

Lemma select_mapM {A B} (f : A → option B) m (l : list A) (k : list B) :
  mapM f l = Some k → mapM f (select m l) = Some (select m k).
Proof.
  rewrite !mapM_Some. intros H. revert m.
  induction H as [|x y l k Hxy H IH]; intros [|b m]; simpl; try constructor.
  destruct b; [constructor; [done|]|]; apply IH.
Qed.

Lemma df_get_select c d s m :
  df_get c d = Some s → df_get c (select m d) = Some (select m s).
Proof. apply select_mapM. Qed.

Lemma select_all {A} (l : list A) : select (replicate (length l) true) l = l.
Proof. induction l as [|x l IH]; simpl; [done|]. by rewrite IH. Qed.

Lemma df_set_df_set c s1 s2 d :
  length s1 = length d → df_set c s2 (df_set c s1 d) = df_set c s2 d.
Proof.
  unfold df_set. revert s1 s2. induction d as [|r d IH]; intros [|x s1] [|y s2] H; simplify_eq/=; try done.
  rewrite insert_insert_eq. f_equal. by apply IH.
Qed.

Lemma delete_df_set_eq c s d :
  length s = length d → delete c <$> df_set c s d = delete c <$> d.
Proof.
  unfold df_set. revert s. induction d as [|r d IH]; intros [|x s] H; simplify_eq/=; try done.
  rewrite delete_insert_eq. f_equal. by apply IH.
Qed.

Lemma delete_df_set_ne c c' s d :
  c ≠ c' → delete c <$> df_set c' s d = df_set c' s (delete c <$> d).
Proof.
  intros Hne. unfold df_set. revert s. induction d as [|r d IH]; intros [|x s]; simpl; try done.
  rewrite delete_insert_ne by done. f_equal. apply IH.
Qed.

Lemma df_get_delete_ne c c' d : c ≠ c' → df_get c (delete c' <$> d) = df_get c d.
Proof.
  intros Hne. unfold df_get. induction d as [|r d IH]; [done|].
  cbn. rewrite lookup_delete_ne by done. destruct (r !! c); [|done]. cbn.
  f_equal. exact IH.
Qed.
End frame_facts.

(** ** Series *)

Section series_facts.
Implicit Types (s : Series) (m : list bool).

Lemma zip_with_fst {A B} (l : list A) (k : list B) :
  length l ≤ length k → zip_with (fun x _ => x) l k = l.
Proof.
  revert k. induction l as [|x l IH]; intros [|y k] H; simplify_eq/=; try done; try lia.
  f_equal. apply IH. lia.
Qed.

Lemma zip_with_zip_with_r {A B C D} (f : C → B → D) (g : A → B → C) (l : list A) (k : list B) :
  zip_with f (zip_with g l k) k = zip_with (fun x y => f (g x y) y) l k.
Proof.
  revert k. induction l as [|x l IH]; intros [|y k]; simpl; try done. f_equal. apply IH.
Qed.

Lemma series_replace_acc (srcs dsts : Series) s (cur : Series) :
  length cur = length s →
  foldl (fun cur (md : list bool * cell) => putmask cur md.1 md.2) cur
        (zip ((fun src => (fun x => bool_decide (x = src)) <$> s) <$> srcs) dsts)
  = zip_with (fun c x => replace_cell (zip srcs dsts) x c) cur s.
Proof.
  revert dsts cur. induction srcs as [|src srcs IH]; intros dsts cur Hlen.
  - cbn. symmetry. apply zip_with_fst. lia.
  - destruct dsts as [|dst dsts].
    + cbn. symmetry. apply zip_with_fst. lia.
    + cbn [fmap list_fmap zip zip_with foldl fst snd]. rewrite IH.
      * unfold putmask. rewrite zip_with_fmap_r, zip_with_zip_with_r. done.
      * unfold putmask. rewrite length_zip_with, length_fmap. lia.
Qed.

Lemma series_replace_cells (srcs dsts : Series) s :
  series_replace srcs dsts s = (fun x => replace_cell (zip srcs dsts) x x) <$> s.
Proof.
  unfold series_replace. rewrite series_replace_acc by done.
  by rewrite zip_with_diag.
Qed.

Lemma replace_cell_cons a b pairs x cur :
  replace_cell ((a, b) :: pairs) x cur
  = replace_cell pairs x (if bool_decide (x = a) then b else cur).
Proof. done. Qed.

Lemma replace_cell_notin pairs x cur :
  x ∉ pairs.*1 → replace_cell pairs x cur = cur.
Proof.
  revert cur. induction pairs as [|[a b] pairs IH]; intros cur Hx; [done|].
  rewrite fmap_cons, not_elem_of_cons in Hx. destruct Hx as [Hne Hx].
  rewrite replace_cell_cons, bool_decide_eq_false_2 by done. by apply IH.
Qed.

(** The value a matching cell is replaced by is paired with it. *)
Lemma replace_cell_in pairs x cur :
  x ∈ pairs.*1 → (x, replace_cell pairs x cur) ∈ pairs.
Proof.
  revert cur. induction pairs as [|[a b] pairs IH]; intros cur Hx.
  - by apply elem_of_nil in Hx.
  - rewrite replace_cell_cons. destruct (decide (x ∈ pairs.*1)) as [Hin|Hnin].
    + right. by apply IH.
    + rewrite fmap_cons, elem_of_cons in Hx. destruct Hx as [->|Hx]; [|done].
      rewrite bool_decide_eq_true_2 by done.
      rewrite replace_cell_notin by done. left.
Qed.

Lemma loc_assign_lookup m (src dst : Series) i (b : bool) (x y : cell) :
  m !! i = Some b → src !! i = Some x → dst !! i = Some y →
  loc_assign m src dst !! i = Some (if b then x else y).
Proof.
  intros Hm Hx Hy. unfold loc_assign.
  rewrite lookup_zip_with, Hm. cbn. rewrite lookup_zip_with, Hx. cbn. by rewrite Hy.
Qed.

Lemma length_loc_assign m (src dst : Series) :
  length m = length dst → length src = length dst → length (loc_assign m src dst) = length dst.
Proof. intros H1 H2. unfold loc_assign. rewrite length_zip_with, length_zip_with. lia. Qed.

Lemma astype_str_idemp s : astype_str (astype_str s) = astype_str s.
Proof. unfold astype_str. rewrite <- list_fmap_compose. done. Qed.

Lemma length_astype_str s : length (astype_str s) = length s.
Proof. apply length_fmap. Qed.

Lemma length_series_replace srcs dsts s : length (series_replace srcs dsts s) = length s.
Proof. by rewrite series_replace_cells, length_fmap. Qed.

Lemma length_reconciled tk tv key shop :
  length shop = length key → length (reconciled tk tv key shop) = length key.
Proof.
  intros H. unfold reconciled, isin.
  rewrite length_loc_assign;
    rewrite ?length_fmap, ?length_series_replace, ?length_astype_str; done.
Qed.

Lemma reconciled_lookup tk tv key shop i k sc :
  key !! i = Some k → shop !! i = Some sc →
  reconciled tk tv key shop !! i =
    Some (let v := replace_cell (zip (astype_str tk) tv) (CStr (to_str k)) (CStr (to_str k)) in
          if bool_decide (v ∈ astype_str key) then sc else v).
Proof.
  intros Hk Hsc. unfold reconciled.
  assert (astype_str key !! i = Some (CStr (to_str k))) as Hk'.
  { unfold astype_str. by rewrite list_lookup_fmap, Hk. }
  erewrite loc_assign_lookup; [done| |done|].
  - unfold isin. rewrite list_lookup_fmap, series_replace_cells, list_lookup_fmap, Hk'. done.
  - by rewrite series_replace_cells, list_lookup_fmap, Hk'.
Qed.
End series_facts.

(** ** The reconciliation pass *)

Section run_facts.
Implicit Types (d tr : DataFrame) (s key shop tk tv : Series) (r : Row) (n : option string).

Lemma item_key_col_df d tr mf mt n d' tr' mf' mt' n' :
  d = d' → item_key_col (mkParser d tr mf mt n) = item_key_col (mkParser d' tr' mf' mt' n').
Proof. by intros ->. Qed.

Lemma series_add_length a b k : series_add a b = Some k → length a = length b → length k = length a.
Proof.
  unfold series_add. intros H Hlen. apply length_mapM in H.
  rewrite length_zip in H. lia.
Qed.

Lemma series_add_lookup a b k i (x y : cell) :
  series_add a b = Some k → a !! i = Some x → b !! i = Some y →
  ∃ z, cell_add x y = Some z ∧ k !! i = Some z.
Proof.
  unfold series_add. intros H Hx Hy. apply mapM_Some_1 in H.
  assert (zip a b !! i = Some (x, y)) as Hz.
  { rewrite lookup_zip_with, Hx. cbn. by rewrite Hy. }
  destruct (Forall2_lookup_l _ _ _ _ _ H Hz) as (z & Hz' & Hadd). eauto.
Qed.

Lemma series_add_select m a b k :
  series_add a b = Some k → series_add (select m a) (select m b) = Some (select m k).
Proof.
  unfold series_add. intros H. rewrite <- select_zip_with.
  by apply select_mapM.
Qed.

Lemma item_key_col_inv d tr mf mt n key :
  item_key_col (mkParser d tr mf mt n) = Some key →
  ∃ shop loc item shop_loc,
    df_get "shop_code" d = Some shop ∧ df_get "location" d = Some loc ∧
    df_get "item_id" d = Some item ∧ series_add shop loc = Some shop_loc ∧
    series_add shop_loc item = Some key.
Proof.
  unfold item_key_col. cbn [df]. intros H.
  destruct (df_get "shop_code" d) as [shop|]; [|done].
  destruct (df_get "location" d) as [loc|]; [|done].
  destruct (df_get "item_id" d) as [item|]; [|done].
  cbn [mbind option_bind] in H.
  destruct (series_add shop loc) as [shop_loc|] eqn:E; [|done].
  cbn [mbind option_bind] in H. eauto 10.
Qed.

Lemma item_key_col_intro d tr mf mt n shop loc item shop_loc key :
  df_get "shop_code" d = Some shop → df_get "location" d = Some loc →
  df_get "item_id" d = Some item → series_add shop loc = Some shop_loc →
  series_add shop_loc item = Some key →
  item_key_col (mkParser d tr mf mt n) = Some key.
Proof.
  intros H1 H2 H3 H4 H5. unfold item_key_col. cbn [df].
  rewrite H1, H2, H3. cbn [mbind option_bind]. rewrite H4. done.
Qed.

Lemma item_key_col_length d tr mf mt n key :
  item_key_col (mkParser d tr mf mt n) = Some key → length key = length d.
Proof.
  intros (shop & loc & item & sl & H1 & H2 & H3 & H4 & H5)%item_key_col_inv.
  apply df_get_length in H1, H2, H3.
  apply series_add_length in H4; [|lia]. apply series_add_length in H5; lia.
Qed.

Lemma item_key_col_lookup d tr mf mt n key i r :
  item_key_col (mkParser d tr mf mt n) = Some key →
  d !! i = Some r → row_key r = key !! i ∧ is_Some (key !! i).
Proof.
  intros (shop & loc & item & sl & H1 & H2 & H3 & H4 & H5)%item_key_col_inv Hr.
  pose proof (df_get_lookup _ _ _ _ _ H1 Hr) as E1.
  pose proof (df_get_lookup _ _ _ _ _ H2 Hr) as E2.
  pose proof (df_get_lookup _ _ _ _ _ H3 Hr) as E3.
  unfold row_key. rewrite E1, E2, E3.
  assert (i < length d) as Hi by (by eapply lookup_lt_Some).
  apply df_get_length in H1 as L1. apply df_get_length in H2 as L2.
  apply df_get_length in H3 as L3.
  destruct (lookup_lt_is_Some_2 shop i) as [x Hx]; [lia|].
  destruct (lookup_lt_is_Some_2 loc i) as [y Hy]; [lia|].
  destruct (lookup_lt_is_Some_2 item i) as [z Hz]; [lia|].
  rewrite Hx, Hy, Hz. cbn [mbind option_bind].
  destruct (series_add_lookup _ _ _ _ _ _ H4 Hx Hy) as (xy & Hxy & Hsl).
  rewrite Hxy. cbn [mbind option_bind].
  destruct (series_add_lookup _ _ _ _ _ _ H5 Hsl Hz) as (k & Hk & Hkey).
  rewrite Hk, Hkey. eauto.
Qed.

Lemma length_keep_mask key shop :
  length key = length shop → length (keep_mask key shop) = length key.
Proof.
  intros H. unfold keep_mask, duplicated.
  rewrite length_zip_with, length_imap, length_fmap. lia.
Qed.

Lemma run_eq d tr n key shop :
  item_key_col (mkParser d tr "KEY" "Shop Code" n) = Some key →
  df_get "shop_code" d = Some shop →
  run_shop_code_transition (mkParser d tr "KEY" "Shop Code" n)
  = tk ← df_get "KEY" tr; tv ← df_get "Shop Code" tr;
    Some (run_result d tr key shop tk tv).
Proof.
  intros Hkey Hshop.
  pose proof (item_key_col_length _ _ _ _ _ _ Hkey) as Lkey.
  pose proof (df_get_length _ _ _ Hshop) as Lshop.
  unfold run_shop_code_transition. cbn [df df_transition map_from map_to new_col_name].
  rewrite (item_key_col_df d tr _ _ _ d tr "KEY" "Shop Code" n eq_refl), Hkey.
  cbn [mbind option_bind].
  (* duplicate suppression *)
  unfold _drop_duplicates_on_character_len, with_df.
  cbn [df df_transition map_from map_to new_col_name].
  rewrite df_get_set_eq by done. cbn [mbind option_bind].
  rewrite df_get_set_ne by done. rewrite Hshop. cbn [mbind option_bind].
  fold (keep_mask key shop). set (mask := keep_mask key shop).
  cbn [df df_transition map_from map_to new_col_name].
  (* cast *)
  assert (length (select mask key) = length (select mask d)) as Lsel
    by (by apply length_select).
  assert (length (select mask shop) = length (select mask key)) as Lsel'
    by (apply length_select; lia).
  unfold _cast_columns. cbn [df df_transition map_from map_to new_col_name].
  rewrite select_df_set, df_get_set_eq by done. cbn [mbind option_bind].
  rewrite df_set_df_set by done.
  set (k := astype_str (select mask key)).
  assert (length k = length (select mask d)) as Lk
    by (unfold k; by rewrite length_astype_str).
  set (d3 := df_set "KEY" k (select mask d)).
  assert (length d3 = length (select mask d)) as Ld3 by (by apply length_df_set).
  destruct (df_get "KEY" tr) as [tk|] eqn:Htk; [|done]. cbn [mbind option_bind].
  pose proof (df_get_length _ _ _ Htk) as Ltk.
  set (tr3 := df_set "KEY" (astype_str tk) tr).
  assert (df_get "KEY" tr3 = Some (astype_str tk)) as Etk.
  { apply df_get_set_eq. by rewrite length_astype_str. }
  assert (df_get "Shop Code" tr3 = df_get "Shop Code" tr) as Etv.
  { apply df_get_set_ne; [done|]. by rewrite length_astype_str. }
  (* mapping *)
  unfold _map_shop_codes, with_df.
  cbn [df df_transition map_from map_to new_col_name mbind option_bind].
  assert (df_get "KEY" d3 = Some k) as Ek by (by apply df_get_set_eq).
  rewrite Ek. cbn [mbind option_bind].
  rewrite (df_get_set_eq "actual shop" k d3) by lia. cbn [mbind option_bind].
  rewrite Etk, Etv. cbn [mbind option_bind].
  destruct (df_get "Shop Code" tr) as [tv|] eqn:Htv; [|done]. cbn [mbind option_bind].
  rewrite (df_set_df_set "actual shop" k _ d3) by lia.
  set (col := series_replace (astype_str tk) tv k).
  assert (length col = length (select mask d)) as Lcol.
  { unfold col. by rewrite length_series_replace. }
  set (d4 := df_set "actual shop" col d3).
  (* backfill *)
  unfold _backfill_unmatched_values, with_df.
  cbn [df df_transition map_from map_to new_col_name mbind option_bind].
  assert (df_get "actual shop" d4 = Some col) as Ecol.
  { apply df_get_set_eq. lia. }
  assert (df_get "KEY" d4 = Some k) as Ek4.
  { unfold d4. rewrite df_get_set_ne by (done || lia). done. }
  assert (df_get "shop_code" d4 = Some (select mask shop)) as Eshop.
  { unfold d4. rewrite df_get_set_ne by (done || lia).
    unfold d3. rewrite df_get_set_ne by (done || lia).
    by apply df_get_select. }
  rewrite Ecol, Ek4, Eshop.
  cbn [df df_transition map_from map_to new_col_name mbind option_bind].
  change (loc_assign (isin col k) (select mask shop) col)
    with (reconciled tk tv (select mask key) (select mask shop)).
  set (final := reconciled tk tv (select mask key) (select mask shop)).
  assert (length final = length (select mask d)) as Lfinal.
  { unfold final. rewrite length_reconciled; done. }
  unfold d4. rewrite (df_set_df_set "actual shop" col final d3) by lia.
  (* cleanup *)
  unfold df_drop.
  rewrite (df_get_set_ne "KEY" "actual shop" final d3) by (done || lia).
  rewrite Ek. cbn [mbind option_bind].
  rewrite delete_df_set_ne by done. unfold d3. rewrite delete_df_set_eq by done.
  done.
Qed.
End run_facts.

(** ** Duplicate suppression *)

Section dup_facts.
Implicit Types (s key shop : Series) (m : list bool).

Lemma occurrences_cons x y s :
  occurrences x (y :: s) = (if decide (y = x) then 1 else 0) + occurrences x s.
Proof. unfold occurrences. rewrite filter_cons. by destruct (decide (y = x)). Qed.

Lemma occurrences_app x s1 s2 :
  occurrences x (s1 ++ s2) = occurrences x s1 + occurrences x s2.
Proof. unfold occurrences. by rewrite filter_app, length_app. Qed.

Lemma occurrences_pos x s : 0 < occurrences x s ↔ x ∈ s.
Proof.
  induction s as [|y s IH].
  - split; [cbn; lia|by intros ?%elem_of_nil].
  - rewrite occurrences_cons, elem_of_cons. destruct (decide (y = x)) as [->|Hne].
    + split; [by left|lia].
    + rewrite <- IH. split; [intros; right; lia|]. intros [->|?]; [done|lia].
Qed.

Lemma occurrences_select x m s : occurrences x (select m s) ≤ occurrences x s.
Proof.
  assert (occurrences x [] = 0) as Hnil by done.
  revert s. induction m as [|b m IH]; intros [|y s]; simpl; rewrite ?Hnil; try lia.
  specialize (IH s). destruct b; rewrite !occurrences_cons; lia.
Qed.

Lemma duplicated_lookup key i k :
  key !! i = Some k →
  duplicated key !! i = Some (bool_decide (2 ≤ occurrences k key)).
Proof.
  intros Hk. unfold duplicated. rewrite list_lookup_imap, Hk. cbn. f_equal.
  apply bool_decide_ext.
  rewrite delete_take_drop, <- occurrences_pos, occurrences_app.
  rewrite <- (take_drop_middle key i k Hk) at 3.
  rewrite occurrences_app, occurrences_cons, decide_True by done. lia.
Qed.

Lemma keep_mask_lookup key shop i k sc :
  key !! i = Some k → shop !! i = Some sc →
  keep_mask key shop !! i
  = Some (negb (bool_decide (2 ≤ occurrences k key)
                && bool_decide (String.length (to_str sc) = 4))).
Proof.
  intros Hk Hsc. unfold keep_mask.
  rewrite lookup_zip_with, (duplicated_lookup _ _ _ Hk). cbn.
  by rewrite list_lookup_fmap, Hsc.
Qed.

Lemma keep_mask_false key shop i k sc :
  key !! i = Some k → shop !! i = Some sc →
  keep_mask key shop !! i = Some false ↔
  2 ≤ occurrences k key ∧ String.length (to_str sc) = 4.
Proof.
  intros Hk Hsc. rewrite (keep_mask_lookup _ _ _ _ _ Hk Hsc).
  do 2 case_bool_decide; cbn; split; try done; try (by intros [??]).
Qed.

Lemma keep_mask_true key shop i k sc :
  key !! i = Some k → shop !! i = Some sc →
  keep_mask key shop !! i = Some true ↔
  ¬ (2 ≤ occurrences k key ∧ String.length (to_str sc) = 4).
Proof.
  intros Hk Hsc. rewrite (keep_mask_lookup _ _ _ _ _ Hk Hsc).
  do 2 case_bool_decide; cbn; split; try done; try (by intros _ [??]).
  intros H'. by destruct H'.
Qed.

Lemma select_lookup_inv {A} m (l : list A) j x :
  select m l !! j = Some x → ∃ i, l !! i = Some x ∧ m !! i = Some true.
Proof.
  revert l j. induction m as [|b m IH]; intros [|y l] j; simpl; try done.
  destruct b.
  - destruct j as [|j]; simpl.
    + intros [= ->]. by exists 0.
    + intros (i & ? & ?)%IH. by exists (S i).
  - intros (i & ? & ?)%IH. by exists (S i).
Qed.

Lemma select_lookup_pair m key shop j k sc :
  select m key !! j = Some k → select m shop !! j = Some sc →
  ∃ i, key !! i = Some k ∧ shop !! i = Some sc ∧ m !! i = Some true.
Proof.
  intros Hk Hsc.
  assert (select m (zip key shop) !! j = Some (k, sc)) as H.
  { rewrite select_zip_with, lookup_zip_with, Hk. cbn. by rewrite Hsc. }
  apply select_lookup_inv in H as (i & Hz & Hm).
  rewrite lookup_zip_with in Hz.
  destruct (key !! i) as [k'|] eqn:Hk'; [|done]. cbn in Hz.
  destruct (shop !! i) as [sc'|] eqn:Hsc'; [|done]. cbn in Hz. injection Hz as -> ->.
  by exists i.
Qed.

(** After the suppression no row is suppressed again. *)
Lemma keep_mask_select key shop :
  length key = length shop →
  let m := keep_mask key shop in
  keep_mask (select m key) (select m shop) = replicate (length (select m key)) true.
Proof.
  intros Hlen m. symmetry. apply replicate_as_Forall. split.
  - rewrite length_keep_mask; [done|]. by apply length_select.
  - apply Forall_lookup. intros j b Hb.
    assert (j < length (select m key)) as Hj.
    { apply lookup_lt_Some in Hb. rewrite length_keep_mask in Hb; [done|].
      by apply length_select. }
    destruct (lookup_lt_is_Some_2 (select m key) j Hj) as [k Hk].
    destruct (lookup_lt_is_Some_2 (select m shop) j) as [sc Hsc].
    { rewrite <- (length_select m key shop); done. }
    destruct (select_lookup_pair _ _ _ _ _ _ Hk Hsc) as (i & Hki & Hsci & Hm).
    apply (keep_mask_true _ _ _ _ _ Hki Hsci) in Hm.
    rewrite (keep_mask_lookup _ _ _ _ _ Hk Hsc) in Hb. injection Hb as <-.
    pose proof (occurrences_select k m key).
    do 2 case_bool_decide; cbn; try done. destruct Hm. split; [lia|done].
Qed.
End dup_facts.

(** ** Rows of the reconciled frame *)

Section pass_facts.
Implicit Types (d tr : DataFrame) (s key shop tk tv : Series) (r : Row) (n : option string).

Lemma item_key_col_rows d tr mf mt n key :
  item_key_col (mkParser d tr mf mt n) = Some key → mapM row_key d = Some key.
Proof.
  intros H. apply mapM_Some_2, Forall2_same_length_lookup_2.
  - symmetry. by eapply item_key_col_length.
  - intros i r k Hr Hk.
    destruct (item_key_col_lookup _ _ _ _ _ _ _ _ H Hr) as [-> _]. done.
Qed.

Lemma item_key_col_select d tr mf mt n key m :
  item_key_col (mkParser d tr mf mt n) = Some key →
  item_key_col (mkParser (select m d) tr mf mt n) = Some (select m key).
Proof.
  intros (shop & loc & item & sl & H1 & H2 & H3 & H4 & H5)%item_key_col_inv.
  eapply item_key_col_intro; eauto using df_get_select, series_add_select.
Qed.

(** A pass succeeds exactly when the three key columns can be added up and
    the transition table has its two columns, and then ends in
    [run_result]. *)
Lemma run_inv d tr n p' :
  run_shop_code_transition (mkParser d tr "KEY" "Shop Code" n) = Some p' →
  ∃ key shop tk tv,
    item_key_col (mkParser d tr "KEY" "Shop Code" n) = Some key ∧
    df_get "shop_code" d = Some shop ∧
    df_get "KEY" tr = Some tk ∧ df_get "Shop Code" tr = Some tv ∧
    p' = run_result d tr key shop tk tv.
Proof.
  intros Hrun.
  destruct (item_key_col (mkParser d tr "KEY" "Shop Code" n)) as [key|] eqn:Hkey.
  - destruct (item_key_col_inv _ _ _ _ _ _ Hkey) as (shop & _ & _ & _ & Hshop & _).
    rewrite (run_eq _ _ _ _ _ Hkey Hshop) in Hrun.
    destruct (df_get "KEY" tr) as [tk|]; [|done].
    destruct (df_get "Shop Code" tr) as [tv|]; [|done].
    cbn in Hrun. injection Hrun as <-. eauto 10.
  - unfold run_shop_code_transition in Hrun.
    cbn [df df_transition map_from map_to new_col_name] in Hrun.
    rewrite (item_key_col_df d tr _ _ _ d tr "KEY" "Shop Code" n eq_refl), Hkey in Hrun.
    done.
Qed.

Lemma row_key_insert_delete r (a : cell) :
  row_key (<["actual shop" := a]> (delete "KEY" r)) = row_key r.
Proof.
  unfold row_key.
  rewrite !lookup_insert_ne by done. by rewrite !lookup_delete_ne by done.
Qed.

(** The rows of the frame a pass leaves. *)
Lemma run_result_lookup d tr n key shop tk tv j r' :
  item_key_col (mkParser d tr "KEY" "Shop Code" n) = Some key →
  df_get "shop_code" d = Some shop →
  df (run_result d tr key shop tk tv) !! j = Some r' →
  let mask := keep_mask key shop in
  ∃ r k sc,
    select mask d !! j = Some r ∧
    select mask key !! j = Some k ∧ select mask shop !! j = Some sc ∧
    row_key r = Some k ∧ r !! "shop_code" = Some sc ∧
    r' = <["actual shop" :=
             let v := replace_cell (zip (astype_str tk) tv)
                                   (CStr (to_str k)) (CStr (to_str k)) in
             if bool_decide (v ∈ astype_str (select mask key)) then sc else v]>
           (delete "KEY" r).
Proof.
  intros Hkey Hshop Hr' mask. unfold run_result in Hr'. cbn [df] in Hr'. fold mask in Hr'.
  unfold df_set in Hr'. apply lookup_zip_with_Some in Hr' as (r0 & a & -> & Hr0 & Ha).
  rewrite list_lookup_fmap in Hr0.
  destruct (select mask d !! j) as [r|] eqn:Hr; [|done]. injection Hr0 as <-.
  pose proof (item_key_col_select _ _ _ _ _ _ mask Hkey) as Hkey'.
  destruct (item_key_col_lookup _ _ _ _ _ _ _ _ Hkey' Hr) as [Hrk [k Hk]].
  pose proof (df_get_lookup _ _ _ _ _ (df_get_select _ _ _ mask Hshop) Hr) as Hsc.
  assert (is_Some (select mask shop !! j)) as [sc Hsc'].
  { apply lookup_lt_is_Some_2.
    rewrite (df_get_length _ _ _ (df_get_select _ _ _ mask Hshop)).
    by eapply lookup_lt_Some. }
  rewrite (reconciled_lookup _ _ _ _ _ _ _ Hk Hsc') in Ha. injection Ha as <-.
  exists r, k, sc. rewrite Hrk, Hsc. done.
Qed.
End pass_facts.

(** ** Positions of the kept rows *)

Section rank_facts.
Lemma rank_S mask i (b : bool) :
  mask !! i = Some b → rank mask (S i) = rank mask i + (if b then 1 else 0).
Proof.
  intros H. unfold rank. rewrite (take_S_r _ _ _ H), filter_app, length_app.
  rewrite filter_cons, filter_nil.
  destruct b; [rewrite decide_True by done|rewrite decide_False by done]; cbn; lia.
Qed.

Lemma rank_cons (b : bool) mask i :
  rank (b :: mask) (S i) = (if b then 1 else 0) + rank mask i.
Proof.
  unfold rank. cbn [take]. rewrite filter_cons.
  destruct b; [by rewrite decide_True|by rewrite decide_False].
Qed.

Lemma rank_le mask i i' : i ≤ i' → rank mask i ≤ rank mask i'.
Proof.
  intros H. unfold rank. rewrite <- (take_drop i (take i' mask)).
  rewrite take_take, Nat.min_l by done. rewrite filter_app, length_app. lia.
Qed.

Lemma rank_lt mask i i' :
  mask !! i = Some true → i < i' → rank mask i < rank mask i'.
Proof.
  intros H Hlt. pose proof (rank_le mask (S i) i' ltac:(lia)).
  rewrite (rank_S _ _ _ H) in *. lia.
Qed.

Lemma select_lookup_rank {A} mask (l : list A) i x :
  mask !! i = Some true → l !! i = Some x → select mask l !! rank mask i = Some x.
Proof.
  revert l i. induction mask as [|b mask IH]; intros [|y l] [|i] Hm Hl; simplify_eq/=; try done.
  rewrite rank_cons. destruct b; simpl; by apply IH.
Qed.

Lemma length_select_rank {A} mask (l : list A) :
  length mask = length l → length (select mask l) = rank mask (length mask).
Proof.
  revert l. induction mask as [|b mask IH]; intros [|y l] H; simplify_eq/=; try done.
  rewrite rank_cons. destruct b; simpl; by rewrite IH.
Qed.
End rank_facts.

Lemma astype_str_notin (tk tv : Series) (x : string) :
  x ∉ to_str <$> tk → CStr x ∉ (zip (astype_str tk) tv).*1.
Proof.
  intros Hx Hin. apply Hx. apply list_elem_of_fmap in Hin as ([a b] & Heq & Hab).
  cbn in Heq. subst a. apply elem_of_zip_l in Hab. unfold astype_str in Hab.
  apply list_elem_of_fmap in Hab as (c & [= ->] & Hc). by apply list_elem_of_fmap_2.
Qed.

(** What the pass guarantees for a matched row. *)
Lemma matched_rows_mapped_unless_collision (d tr : DataFrame) (p' : DataframeParser) :
  run_shop_code_transition (new_parser d tr) = Some p' →
  ∀ j r' k tk tv,
    df p' !! j = Some r' → row_key r' = Some k →
    df_get "KEY" tr = Some tk → df_get "Shop Code" tr = Some tv →
    to_str k ∈ to_str <$> tk →
    ∃ v, (CStr (to_str k), v) ∈ zip (astype_str tk) tv ∧
         ((∀ j2 r2 k2, df p' !! j2 = Some r2 → row_key r2 = Some k2 →
                       v ≠ CStr (to_str k2)) →
          r' !! "actual shop" = Some v).
Proof.
  intros (key & shop & tk & tv & Hkey & Hshop & Htk & Htv & ->)%run_inv.
  intros j r' k tk' tv' Hr' Hk Htk' Htv' Hin. simplify_eq.
  destruct (run_result_lookup _ _ _ _ _ _ _ _ _ Hkey Hshop Hr')
    as (r & k0 & sc & Hr & Hk0 & Hsc & Hrk & Hrsc & ->).
  rewrite row_key_insert_delete, Hrk in Hk. injection Hk as ->.
  set (v := replace_cell (zip (astype_str tk) tv) (CStr (to_str k)) (CStr (to_str k))).
  exists v. split.
  - apply replace_cell_in. rewrite fst_zip.
    + unfold astype_str. apply list_elem_of_fmap in Hin as (c & -> & Hc).
      by apply (list_elem_of_fmap_2' _ _ c).
    + rewrite length_astype_str, (df_get_length _ _ _ Htk), (df_get_length _ _ _ Htv). done.
  - intros Hfresh. rewrite lookup_insert_eq. cbn zeta. fold v.
    rewrite bool_decide_eq_false_2; [done|].
    unfold astype_str. intros (k2 & Hv & Hk2)%list_elem_of_fmap.
    apply list_elem_of_lookup in Hk2 as [j2 Hk2].
    assert (is_Some (df (run_result d tr key shop tk tv) !! j2)) as [r2 Hr2].
    { apply lookup_lt_is_Some_2. unfold run_result. cbn [df].
      rewrite length_df_set.
      - rewrite length_fmap, <- (length_select _ key d).
        + by eapply lookup_lt_Some.
        + by eapply item_key_col_length.
      - rewrite length_reconciled, length_fmap.
        + apply length_select. by eapply item_key_col_length.
        + apply length_select. rewrite (df_get_length _ _ _ Hshop).
          symmetry. by eapply item_key_col_length. }
    destruct (run_result_lookup _ _ _ _ _ _ _ _ _ Hkey Hshop Hr2)
      as (r0 & k3 & sc3 & Hr0 & Hk3 & Hsc3 & Hrk3 & Hrsc3 & ->).
    simplify_eq. eapply (Hfresh j2); [done| |done].
    by rewrite row_key_insert_delete.
Qed.

(** ** Field extraction *)

Section parse_facts.

Lemma df_set_fmap {A} c (f : A → cell) (g : A → Row) (l : list A) :
  df_set c (f <$> l) (g <$> l) = (fun x => <[c := f x]> (g x)) <$> l.
Proof. unfold df_set. induction l as [|x l IH]; [done|]. cbn. f_equal. apply IH. Qed.

Lemma parse_fold (m : list (string * (nat * nat))) (g : string → Row) raw :
  foldl (fun df_parsed '(column, str_slice) =>
           let sliced_str := Text.slice (fst str_slice) (snd str_slice) <$> raw in
           df_set column ((fun s => CStr (Text.strip s)) <$> sliced_str) df_parsed)
        (g <$> raw) m
  = (fun record =>
       foldl (fun (row : Row) '(column, str_slice) =>
                <[column := CStr (Text.strip (Text.slice (fst str_slice) (snd str_slice) record))]> row)
             (g record) m) <$> raw.
Proof.
  revert g. induction m as [|[column [a b]] m IH]; intros g; cbn [foldl fst snd].
  - done.
  - rewrite <- list_fmap_compose, df_set_fmap.
    apply (IH (fun x => <[column := CStr (Text.strip (Text.slice a b x))]> (g x))).
Qed.

Lemma parse_df_rows raw : parse_df raw = parse_row <$> raw.
Proof. apply (parse_fold column_to_str_index_mapping (fun _ => ∅)). Qed.

Lemma parse_df_lookup raw i :
  parse_df raw !! i = parse_row <$> raw !! i.
Proof. by rewrite parse_df_rows, list_lookup_fmap. Qed.

Lemma parse_row_lookup record column a b :
  (column, (a, b)) ∈ column_to_str_index_mapping →
  parse_row record !! column = Some (CStr (Text.strip (Text.slice a b record))).
Proof.
  unfold column_to_str_index_mapping. rewrite !elem_of_cons, elem_of_nil.
  intros H. unfold parse_row, column_to_str_index_mapping. cbn [foldl fst snd].
  repeat (destruct H as [H|H]; [injection H as -> -> ->; by simplify_map_eq|]).
  done.
Qed.

Lemma parse_row_dom record :
  dom (parse_row record) = list_to_set (fst <$> column_to_str_index_mapping).
Proof.
  unfold parse_row, column_to_str_index_mapping. cbn [foldl fst snd fmap list_fmap list_to_set].
  rewrite !dom_insert_L, dom_empty_L. set_solver.
Qed.


Lemma parse_row_size record :
  size (parse_row record) = length column_to_str_index_mapping.
Proof.
  unfold parse_row, column_to_str_index_mapping. cbn [foldl fst snd length].
  repeat (rewrite map_size_insert_None; [|by simplify_map_eq]).
  by rewrite map_size_empty.
Qed.
End parse_facts.

(** ** File selection *)

Section find_files_facts.
Variables date_start date_stop : datetime.

Lemma find_files_acc (acc files_searched : list string) :
  foldl (fun (files_to_clean : list string) f =>
           let date := List.last (split "_" (stem f)) EmptyString in
           match strptime_Ym date with
           | None => files_to_clean
           | Some date_fmt =>
               if datetime_leb date_start date_fmt && datetime_leb date_fmt date_stop
               then files_to_clean ++ [f] else files_to_clean
           end) acc files_searched
  = acc ++ List.filter (selected date_start date_stop) files_searched.
Proof.
  revert acc. induction files_searched as [|f fs IH]; intros acc; cbn [foldl List.filter].
  - by rewrite app_nil_r.
  - rewrite IH. unfold selected at 2, date_of.
    destruct (strptime_Ym _) as [d|]; [|done].
    destruct (_ && _); [|done]. by rewrite <- app_assoc.
Qed.

Lemma find_files_filter files_searched :
  find_files files_searched date_start date_stop
  = List.filter (selected date_start date_stop) files_searched.
Proof. unfold find_files. by rewrite find_files_acc. Qed.
End find_files_facts.

Lemma digit_lt c d : digit c = Some d → d < 10.
Proof.
  unfold digit. destruct (_ && _) eqn:E; [|done]. intros [= <-].
  apply andb_prop in E as [_ E%Nat.leb_le]. lia.
Qed.





Lemma match_m_two c5 c6 m rest :
  match_m (String c5 (String c6 EmptyString)) = Some (m, rest) →
  rest = EmptyString →
  ∃ d5 d6, digit c5 = Some d5 ∧ digit c6 = Some d6 ∧ m = 10 * d5 + d6 ∧ 1 ≤ m ≤ 12.
Proof.
  unfold match_m, match_m_1_9.
  destruct (digit c5) as [[|[|d5]]|] eqn:H5; cbn [mbind option_bind];
    (destruct (digit c6) as [d6|] eqn:H6; cbn [mbind option_bind]);
    repeat case_match; intros [= <- <-]; try done; intros _;
    repeat match goal with H : (_ <=? _) = true |- _ => apply Nat.leb_le in H end.
  - exists 0, d6. apply digit_lt in H6. split_and!; try done; lia.
  - exists 1, d6. split_and!; try done; lia.
Qed.

Lemma match_m_two_intro c5 c6 d5 d6 :
  digit c5 = Some d5 → digit c6 = Some d6 → 1 ≤ 10 * d5 + d6 ≤ 12 →
  match_m (String c5 (String c6 EmptyString)) = Some (10 * d5 + d6, EmptyString).
Proof.
  intros H5 H6 Hm. pose proof (digit_lt _ _ H6). unfold match_m. rewrite H5, H6.
  destruct d5 as [|[|d5]]; [| |lia].
  - rewrite (proj2 (Nat.leb_le 1 d6)) by lia. done.
  - rewrite (proj2 (Nat.leb_le d6 2)) by lia. done.
Qed.

(** On a token of six characters [strptime] with [%Y%m] succeeds exactly on
    six digits that spell a year from 1 on and a month from 01 to 12. *)
Lemma strptime_Ym_six c1 c2 c3 c4 c5 c6 d :
  strptime_Ym (String c1 (String c2 (String c3 (String c4
                 (String c5 (String c6 EmptyString)))))) = Some d ↔
  ∃ d1 d2 d3 d4 d5 d6,
    digit c1 = Some d1 ∧ digit c2 = Some d2 ∧ digit c3 = Some d3 ∧
    digit c4 = Some d4 ∧ digit c5 = Some d5 ∧ digit c6 = Some d6 ∧
    1 ≤ 1000 * d1 + 100 * d2 + 10 * d3 + d4 ∧
    1 ≤ 10 * d5 + d6 ≤ 12 ∧
    d = mkDatetime (1000 * d1 + 100 * d2 + 10 * d3 + d4) (10 * d5 + d6) 1 0 0 0 0.
Proof.
  unfold strptime_Ym, match_Y. split.
  - destruct (digit c1) as [d1|]; [|done]. destruct (digit c2) as [d2|]; [|done].
    destruct (digit c3) as [d3|]; [|done]. destruct (digit c4) as [d4|]; [|done].
    cbn [mbind option_bind].
    destruct (match_m _) as [[m rest]|] eqn:Hm; [|done]. cbn [mbind option_bind].
    destruct rest; [|done]. destruct (1 <=? _) eqn:Hy; [|done]. intros [= <-].
    apply Nat.leb_le in Hy.
    destruct (match_m_two _ _ _ _ Hm eq_refl) as (d5 & d6 & H5 & H6 & -> & Hb).
    exists d1, d2, d3, d4, d5, d6. split_and!; try done; lia.
  - intros (d1 & d2 & d3 & d4 & d5 & d6 & -> & -> & -> & -> & H5 & H6 & Hy & Hm & ->).
    cbn [mbind option_bind]. rewrite (match_m_two_intro _ _ _ _ H5 H6 Hm).
    cbn [mbind option_bind]. by rewrite (proj2 (Nat.leb_le _ _) Hy).
Qed.

(** The directive [%m] also takes a month of one digit. *)
Example strptime_Ym_one_digit_month :
  strptime_Ym "20171" = Some (mkDatetime 2017 1 1 0 0 0 0).
Proof. reflexivity. Qed.

(** * The claims *)



(** C5: a record shorter than 439 characters is extracted all the same: the
    frame keeps one row per record, the row has its 11 fields, and a field
    whose range runs past the end of the record holds what is left of the
    record from [start] on (stripped), the empty string when nothing is. *)
Theorem parse_df_short_record (raw : list string) (i : nat) (record : string) :
  raw !! i = Some record →
  String.length record < 439 →
  length (parse_df raw) = length raw ∧
  ∃ row : Row,
    parse_df raw !! i = Some row ∧
    size row = 11 ∧
    ∀ column a b, (column, (a, b)) ∈ column_to_str_index_mapping →
      ∃ v : string,
        row !! column = Some (CStr (Text.strip v)) ∧
        v = Text.slice a b record ∧
        (String.length record < b →
           v = substring a (String.length record - a) record ∧
           String.length v = String.length record - a) ∧
        (String.length record ≤ a → v = EmptyString).
Proof.
  intros Hi Hlen. split.
  { by rewrite parse_df_rows, length_fmap. }
  exists (parse_row record). split_and!.
  - by rewrite parse_df_lookup, Hi.
  - by rewrite parse_row_size.
  - intros column a b Hin. exists (Text.slice a b record). split_and!.
    + by apply parse_row_lookup.
    + done.
    + intros Hb. split.
      * apply slice_past_end. lia.
      * rewrite length_slice. lia.
    + intros Ha. by apply substring_empty.
Qed.

Lemma parse_df_short_record_witness :
  String.length "201707000123 1005A1" < 439 ∧
  length (parse_df ["201707000123 1005A1"]) = 1 ∧
  ∃ row : Row,
    parse_df ["201707000123 1005A1"] !! 0 = Some row ∧
    size row = 11 ∧
    ∀ column a b, (column, (a, b)) ∈ column_to_str_index_mapping →
      ∃ v : string,
        row !! column = Some (CStr (Text.strip v)) ∧
        v = Text.slice a b "201707000123 1005A1" ∧
        (String.length "201707000123 1005A1" < b →
           v = substring a (String.length "201707000123 1005A1" - a) "201707000123 1005A1" ∧
           String.length v = String.length "201707000123 1005A1" - a) ∧
        (String.length "201707000123 1005A1" ≤ a → v = EmptyString).
Proof.
  assert (String.length "201707000123 1005A1" < 439) as H by (vm_compute; lia).
  split; [exact H|].
  exact (parse_df_short_record ["201707000123 1005A1"] 0 _ eq_refl H).
Defined.

(** C10: every extracted value is at most [end - start] characters long; an
    extracted shop code has at most 4 characters, and it passes the
    4-character test of the duplicate suppression exactly when the record
    reaches offset 21 and stripping removed nothing from [record[17:21]]. *)
Theorem extracted_field_width (raw : list string) (i : nat) (record : string) :
  raw !! i = Some record →
  ∃ row : Row,
    parse_df raw !! i = Some row ∧
    (∀ column a b, (column, (a, b)) ∈ column_to_str_index_mapping →
       ∃ v : string, row !! column = Some (CStr v) ∧ String.length v ≤ b - a) ∧
    ∃ shop_code : string,
      row !! "shop_code" = Some (CStr shop_code) ∧
      String.length shop_code ≤ 4 ∧
      (String.length (to_str (CStr shop_code)) = 4 ↔
       21 ≤ String.length record ∧ shop_code = Text.slice 17 21 record).
Proof.
  intros Hi. exists (parse_row record). split_and!.
  - by rewrite parse_df_lookup, Hi.
  - intros column a b Hin. eexists. split; [by apply parse_row_lookup|].
    pose proof (length_strip (Text.slice a b record)).
    pose proof (length_slice_le a b record). lia.
  - exists (Text.strip (Text.slice 17 21 record)).
    pose proof (length_strip (Text.slice 17 21 record)) as Hs.
    pose proof (length_slice 17 21 record) as Hl.
    split_and!.
    + apply parse_row_lookup. unfold column_to_str_index_mapping. set_solver.
    + lia.
    + cbn [to_str]. split.
      * intros H4. split; [lia|]. apply strip_same_length. lia.
      * intros [Hlen Heq]. rewrite Heq. lia.
Qed.

Lemma extracted_field_width_witness :
  ∃ row : Row,
    parse_df [full_record] !! 0 = Some row ∧
    (∀ column a b, (column, (a, b)) ∈ column_to_str_index_mapping →
       ∃ v : string, row !! column = Some (CStr v) ∧ String.length v ≤ b - a) ∧
    ∃ shop_code : string,
      row !! "shop_code" = Some (CStr shop_code) ∧
      String.length shop_code ≤ 4 ∧
      (String.length (to_str (CStr shop_code)) = 4 ↔
       21 ≤ String.length full_record ∧ shop_code = Text.slice 17 21 full_record).
Proof. exact (extracted_field_width [full_record] 0 full_record eq_refl). Defined.

(** C3: on the frame with its composite keys in [KEY], the suppression
    keeps the rows under a mask that is false at a row exactly when its key
    occurs at least twice in the column and its shop code is 4 characters
    long; every other row (a unique key, or another length) is kept and is
    found at its rank among the kept rows, and the frame left holds no
    other row. *)
Theorem drop_duplicates_on_character_len_spec
    (d tr : DataFrame) (n : option string) (key shop : Series) :
  item_key_col (mkParser d tr "KEY" "Shop Code" n) = Some key →
  df_get "shop_code" d = Some shop →
  let self := with_df (df_set "KEY" key d) (mkParser d tr "KEY" "Shop Code" n) in
  ∃ mask : list bool,
    _drop_duplicates_on_character_len 4 self
      = Some (with_df (select mask (df self)) self) ∧
    length mask = length d ∧
    mapM row_key d = Some key ∧
    length (select mask (df self)) = rank mask (length d) ∧
    (∀ j r', select mask (df self) !! j = Some r' →
       ∃ i, df self !! i = Some r' ∧ mask !! i = Some true) ∧
    ∀ i r, d !! i = Some r →
      ∃ k sc,
        row_key r = Some k ∧ r !! "shop_code" = Some sc ∧
        (mask !! i = Some false ↔
           2 ≤ occurrences k key ∧ String.length (to_str sc) = 4) ∧
        (mask !! i = Some true ↔
           ¬ (2 ≤ occurrences k key ∧ String.length (to_str sc) = 4)) ∧
        (mask !! i = Some true →
           select mask (df self) !! rank mask i = Some (<["KEY" := k]> r)).
Proof.
  intros Hkey Hshop self.
  pose proof (item_key_col_length _ _ _ _ _ _ Hkey) as Lkey.
  pose proof (df_get_length _ _ _ Hshop) as Lshop.
  exists (keep_mask key shop).
  assert (length (keep_mask key shop) = length d) as Lmask.
  { rewrite length_keep_mask; lia. }
  assert (length (df self) = length d) as Lself.
  { unfold self, with_df. cbn [df]. by rewrite length_df_set. }
  split_and!.
  - unfold _drop_duplicates_on_character_len, self, with_df.
    cbn [df df_transition map_from map_to new_col_name].
    rewrite df_get_set_eq by done. cbn [mbind option_bind].
    rewrite df_get_set_ne by done. rewrite Hshop. done.
  - done.
  - by eapply item_key_col_rows.
  - rewrite <- Lmask. apply length_select_rank. lia.
  - intros j r'. apply select_lookup_inv.
  - intros i r Hr.
    destruct (item_key_col_lookup _ _ _ _ _ _ _ _ Hkey Hr) as [Hrk [k Hk]].
    pose proof (df_get_lookup _ _ _ _ _ Hshop Hr) as Hsc.
    assert (is_Some (shop !! i)) as [sc Hsc'].
    { apply lookup_lt_is_Some_2. rewrite Lshop. by eapply lookup_lt_Some. }
    exists k, sc. split_and!.
    + by rewrite Hrk.
    + by rewrite Hsc.
    + by apply keep_mask_false.
    + by apply keep_mask_true.
    + intros Hm. apply select_lookup_rank; [done|].
      unfold self, with_df. cbn [df]. by apply df_set_lookup.
Qed.

Lemma drop_duplicates_on_character_len_spec_witness :
  item_key_col (mkParser sample_frame transition_example "KEY" "Shop Code" None)
    = Some sample_key ∧
  df_get "shop_code" sample_frame = Some sample_shop ∧
  let self := with_df (df_set "KEY" sample_key sample_frame)
                      (mkParser sample_frame transition_example "KEY" "Shop Code" None) in
  ∃ mask : list bool,
    _drop_duplicates_on_character_len 4 self
      = Some (with_df (select mask (df self)) self) ∧
    length mask = length sample_frame ∧
    mapM row_key sample_frame = Some sample_key ∧
    length (select mask (df self)) = rank mask (length sample_frame) ∧
    (∀ j r', select mask (df self) !! j = Some r' →
       ∃ i, df self !! i = Some r' ∧ mask !! i = Some true) ∧
    ∀ i r, sample_frame !! i = Some r →
      ∃ k sc,
        row_key r = Some k ∧ r !! "shop_code" = Some sc ∧
        (mask !! i = Some false ↔
           2 ≤ occurrences k sample_key ∧ String.length (to_str sc) = 4) ∧
        (mask !! i = Some true ↔
           ¬ (2 ≤ occurrences k sample_key ∧ String.length (to_str sc) = 4)) ∧
        (mask !! i = Some true →
           select mask (df self) !! rank mask i = Some (<["KEY" := k]> r)).
Proof.
  assert (item_key_col (mkParser sample_frame transition_example "KEY" "Shop Code" None)
          = Some sample_key) as H1 by (vm_compute; reflexivity).
  assert (df_get "shop_code" sample_frame = Some sample_shop) as H2
    by (vm_compute; reflexivity).
  split; [exact H1|]. split; [exact H2|].
  exact (drop_duplicates_on_character_len_spec
           sample_frame transition_example None sample_key sample_shop H1 H2).
Defined.

(** C1 (amended): after a pass, a row whose composite key matches no key of
    the transition table ends with its own shop code as "actual shop"; and
    whenever the final value of a row equals the composite key of a
    surviving row, that value is the row's own shop code. *)
Theorem unmatched_rows_fall_back (d tr : DataFrame) (p' : DataframeParser) :
  run_shop_code_transition (new_parser d tr) = Some p' →
  fallback_holds tr p' ∧
  ∀ j r' j2 r2 k2,
    df p' !! j = Some r' → df p' !! j2 = Some r2 → row_key r2 = Some k2 →
    r' !! "actual shop" = Some (CStr (to_str k2)) →
    r' !! "actual shop" = r' !! "shop_code".
Proof.
  intros (key & shop & tk & tv & Hkey & Hshop & Htk & Htv & ->)%run_inv. split.
  - intros j r' k Hr' Hk Hnot.
    destruct (run_result_lookup _ _ _ _ _ _ _ _ _ Hkey Hshop Hr')
      as (r & k0 & sc & Hr & Hk0 & Hsc & Hrk & Hrsc & ->).
    rewrite row_key_insert_delete, Hrk in Hk. injection Hk as ->.
    rewrite lookup_insert_eq, lookup_insert_ne, lookup_delete_ne, Hrsc by done.
    cbn zeta. rewrite replace_cell_notin by (apply astype_str_notin; eauto).
    rewrite bool_decide_eq_true_2; [done|].
    unfold astype_str. apply (list_elem_of_fmap_2' _ _ k); [|done].
    by eapply list_elem_of_lookup_2.
  - intros j r' j2 r2 k2 Hr' Hr2 Hk2.
    destruct (run_result_lookup _ _ _ _ _ _ _ _ _ Hkey Hshop Hr')
      as (r & k0 & sc & Hr & Hk0 & Hsc & Hrk & Hrsc & ->).
    destruct (run_result_lookup _ _ _ _ _ _ _ _ _ Hkey Hshop Hr2)
      as (r0 & k3 & sc3 & Hr0 & Hk3 & Hsc3 & Hrk3 & Hrsc3 & ->).
    rewrite row_key_insert_delete, Hrk3 in Hk2. injection Hk2 as ->.
    rewrite lookup_insert_eq, lookup_insert_ne, lookup_delete_ne, Hrsc by done.
    cbn zeta. case_bool_decide as Hin; [done|].
    intros [= Heq]. destruct Hin. rewrite Heq.
    unfold astype_str. apply (list_elem_of_fmap_2' _ _ k2); [|done].
    by eapply list_elem_of_lookup_2.
Qed.

Lemma unmatched_rows_fall_back_witness :
  ∃ p', run_shop_code_transition (new_parser sample_frame transition_example) = Some p' ∧
  (fallback_holds transition_example p' ∧
   ∀ j r' j2 r2 k2,
     df p' !! j = Some r' → df p' !! j2 = Some r2 → row_key r2 = Some k2 →
     r' !! "actual shop" = Some (CStr (to_str k2)) →
     r' !! "actual shop" = r' !! "shop_code").
Proof.
  destruct (run_shop_code_transition (new_parser sample_frame transition_example))
    as [p'|] eqn:E; [|by vm_compute in E].
  exists p'. split; [done|].
  exact (unmatched_rows_fall_back _ _ _ E).
Defined.

(** The second end-to-end example: the key [ZZZZ00019] has no entry in the
    transition table and the row ends with its shop code [ZZZZ]; the first:
    the key [A12X1005] is paired with [007]. *)
Example end_to_end_examples :
  ∃ p', run_shop_code_transition
          (new_parser (parse_df [record_matched; record_unmatched]) transition_example)
        = Some p' ∧
    df p' !! 0 ≫= (.!! "actual shop") = Some (CStr "007") ∧
    df p' !! 1 ≫= (.!! "actual shop") = Some (CStr "ZZZZ").
Proof.
  destruct (run_shop_code_transition
              (new_parser (parse_df [record_matched; record_unmatched]) transition_example))
    as [p'|] eqn:E; [|by vm_compute in E].
  exists p'. split; [done|]. vm_compute in E. injection E as <-. split; reflexivity.
Qed.

(** Keys are compared as strings: the integer key [12345] of the transition
    table matches the composite key ["12345"] of a row. *)
Example integer_key_matches :
  ∃ p' r',
    run_shop_code_transition (new_parser (parse_df [record_digits]) transition_int)
    = Some p' ∧
    df p' !! 0 = Some r' ∧
    row_key r' = Some (CStr "12345") ∧
    df_get "KEY" transition_int = Some [CInt 12345] ∧
    r' !! "shop_code" = Some (CStr "1234") ∧
    r' !! "actual shop" = Some (CStr "007").
Proof.
  destruct (run_shop_code_transition
              (new_parser (parse_df [record_digits]) transition_int))
    as [p'|] eqn:E; [|by vm_compute in E].
  vm_compute in E. injection E as <-.
  eexists _, _. split; [reflexivity|]. split; [reflexivity|].
  split_and!; by vm_compute.
Qed.

(** C1 as stated fails: a record that carries a shop code only has that
    shop code as its composite key, so the fallback itself leaves the raw
    key. *)
Lemma no_raw_key_left_fails :
  ¬ (∀ d tr p', run_shop_code_transition (new_parser d tr) = Some p' →
                fallback_holds tr p' ∧ no_raw_key_left tr p').
Proof.
  intros H.
  destruct (run_shop_code_transition
              (new_parser (parse_df [record_bare_ZZZZ]) transition_example))
    as [p'|] eqn:E; [|by vm_compute in E].
  destruct (H _ _ _ E) as [_ Hno].
  vm_compute in E. injection E as <-.
  refine (Hno 0 _ 0 _ (CStr "ZZZZ") eq_refl eq_refl eq_refl _ eq_refl).
  intros tk [= <-]. vm_compute. by intros [?|?%elem_of_nil]%elem_of_cons.
Qed.

(** C2, at the failing input: the key [A12X1005] of the first row is paired
    with [007] in the transition table, and [007] is also the composite key
    of the second row; the backfill takes the mapped value for an unmatched
    one and the first row ends with [A12X], not [007]. *)
Theorem matched_row_backfilled :
  ∃ p' r',
    run_shop_code_transition
      (new_parser (parse_df [record_matched; record_bare_007]) transition_example)
    = Some p' ∧
    df p' !! 0 = Some r' ∧
    row_key r' = Some (CStr "A12X1005") ∧
    df_get "KEY" transition_example = Some [CStr "A12X1005"] ∧
    df_get "Shop Code" transition_example = Some [CStr "007"] ∧
    r' !! "actual shop" = Some (CStr "A12X").
Proof.
  destruct (run_shop_code_transition
              (new_parser (parse_df [record_matched; record_bare_007]) transition_example))
    as [p'|] eqn:E; [|by vm_compute in E].
  vm_compute in E. injection E as <-.
  eexists _, _. split; [reflexivity|]. split; [reflexivity|].
  split_and!; by vm_compute.
Qed.

(** A pass on the frame a pass has left, with a transition table whose
    keys have the same string forms, ends in the same state. *)
Lemma run_again (d tr tr2 : DataFrame) (n n2 : option string)
    (key shop tk tv tk2 : Series) :
  item_key_col (mkParser d tr "KEY" "Shop Code" n) = Some key →
  df_get "shop_code" d = Some shop →
  df_get "KEY" tr2 = Some tk2 → df_get "Shop Code" tr2 = Some tv →
  astype_str tk2 = astype_str tk →
  df_set "KEY" (astype_str tk) tr2 = df_set "KEY" (astype_str tk) tr →
  run_shop_code_transition
    (mkParser (df (run_result d tr key shop tk tv)) tr2 "KEY" "Shop Code" n2)
  = Some (run_result d tr key shop tk tv).
Proof.
  intros Hkey Hshop Htk2 Htv2 Hcast Htr.
  pose proof (item_key_col_length _ _ _ _ _ _ Hkey) as Lkey.
  pose proof (df_get_length _ _ _ Hshop) as Lshop.
  set (mask := keep_mask key shop).
  assert (length (select mask key) = length (select mask d)) as Lsel
    by (by apply length_select).
  assert (length (select mask shop) = length (select mask key)) as Lsel'
    by (apply length_select; lia).
  set (final := reconciled tk tv (select mask key) (select mask shop)).
  assert (length final = length (select mask d)) as Lfinal.
  { unfold final. rewrite length_reconciled; done. }
  unfold run_result at 1. cbn [df]. fold mask. fold final.
  set (d' := df_set "actual shop" final (delete "KEY" <$> select mask d)).
  assert (length (delete "KEY" <$> select mask d) = length (select mask d)) as Ldel
    by apply length_fmap.
  assert (∀ c s, c ≠ "actual shop" → c ≠ "KEY" →
                 df_get c (select mask d) = Some s → df_get c d' = Some s) as Hcol.
  { intros c s H1 H2 Hs. unfold d'.
    rewrite df_get_set_ne by (done || lia). by rewrite df_get_delete_ne. }
  assert (item_key_col (mkParser d' tr2 "KEY" "Shop Code" n2)
          = Some (select mask key)) as Hkey'.
  { destruct (item_key_col_inv _ _ _ _ _ _ (item_key_col_select _ _ _ _ _ _ mask Hkey))
      as (s1 & s2 & s3 & s4 & H1 & H2 & H3 & H4 & H5).
    eapply item_key_col_intro; eauto. }
  assert (df_get "shop_code" d' = Some (select mask shop)) as Hshop'.
  { apply Hcol; [done..|]. by apply df_get_select. }
  rewrite (run_eq _ _ _ _ _ Hkey' Hshop'), Htk2, Htv2.
  cbn [mbind option_bind]. f_equal.
  unfold run_result. fold mask.
  pose proof (keep_mask_select key shop ltac:(lia)) as Hm.
  cbn zeta in Hm. fold mask in Hm. rewrite Hm. clear Hm.
  rewrite (select_all (select mask key)).
  rewrite <- Lsel' at 1. rewrite (select_all (select mask shop)).
  replace (length (select mask key)) with (length d')
    by (unfold d'; rewrite length_df_set; lia).
  rewrite (select_all d').
  f_equal.
  - unfold reconciled. rewrite Hcast.
    fold (reconciled tk tv (select mask key) (select mask shop)). fold final.
    unfold d'. rewrite delete_df_set_ne by done. rewrite <- list_fmap_compose.
    rewrite df_set_df_set by (rewrite length_fmap; lia).
    f_equal. apply list_fmap_ext. intros _ r _. cbn. apply delete_delete_eq.
  - by rewrite Hcast.
Qed.

(** C6: the frame a pass leaves has no [KEY] column, and a second pass on
    it succeeds and changes nothing: the "actual shop" column (and the whole
    parser state) is what the first pass left, whether the second pass is
    given the transition table as the first pass left it or as it was. *)
Theorem run_shop_code_transition_idempotent (d tr : DataFrame) (p' : DataframeParser) :
  run_shop_code_transition (new_parser d tr) = Some p' →
  (∀ r', r' ∈ df p' → r' !! "KEY" = None) ∧
  run_shop_code_transition p' = Some p' ∧
  run_shop_code_transition (new_parser (df p') (df_transition p')) = Some p' ∧
  run_shop_code_transition (new_parser (df p') tr) = Some p' ∧
  ∀ p'', run_shop_code_transition p' = Some p'' →
         df_get "actual shop" (df p'') = df_get "actual shop" (df p').
Proof.
  intros (key & shop & tk & tv & Hkey & Hshop & Htk & Htv & ->)%run_inv.
  pose proof (df_get_length _ _ _ Htk) as Ltk.
  assert (length (astype_str tk) = length tr) as L by (by rewrite length_astype_str).
  assert (∀ n2, run_shop_code_transition
            (mkParser (df (run_result d tr key shop tk tv))
                      (df_set "KEY" (astype_str tk) tr) "KEY" "Shop Code" n2)
          = Some (run_result d tr key shop tk tv)) as Hcast.
  { intros n2. eapply (run_again d tr _ None n2 key shop tk tv (astype_str tk)); try done.
    - by apply df_get_set_eq.
    - by rewrite df_get_set_ne.
    - apply astype_str_idemp.
    - by apply df_set_df_set. }
  split_and!.
  - intros r' Hr'. apply list_elem_of_lookup in Hr' as [j Hr'].
    destruct (run_result_lookup _ _ _ _ _ _ _ _ _ Hkey Hshop Hr')
      as (r & k0 & sc & Hr & Hk0 & Hsc & Hrk & Hrsc & ->).
    rewrite lookup_insert_ne by done. apply lookup_delete_eq.
  - apply Hcast.
  - apply Hcast.
  - by eapply (run_again d tr tr None None key shop tk tv tk).
  - intros p'' Hp''.
    assert (run_shop_code_transition (run_result d tr key shop tk tv)
            = Some (run_result d tr key shop tk tv)) as Hself
      by exact (Hcast (Some "actual shop")).
    rewrite Hself in Hp''. by injection Hp'' as <-.
Qed.

Lemma run_shop_code_transition_idempotent_witness :
  ∃ p', run_shop_code_transition (new_parser sample_frame transition_example) = Some p' ∧
  ((∀ r', r' ∈ df p' → r' !! "KEY" = None) ∧
  run_shop_code_transition p' = Some p' ∧
  run_shop_code_transition (new_parser (df p') (df_transition p')) = Some p' ∧
  run_shop_code_transition (new_parser (df p') transition_example) = Some p' ∧
  ∀ p'', run_shop_code_transition p' = Some p'' →
         df_get "actual shop" (df p'') = df_get "actual shop" (df p')).
Proof.
  destruct (run_shop_code_transition (new_parser sample_frame transition_example))
    as [p'|] eqn:E; [|by vm_compute in E].
  exists p'. split; [done|].
  exact (run_shop_code_transition_idempotent _ _ _ E).
Defined.

(** C7: the frame a pass leaves is the frame of the kept rows, in their
    input order, each with its [KEY] column removed and the "actual shop"
    column set; every other column of a kept row holds what it held. *)
Theorem run_shop_code_transition_frame (d tr : DataFrame) (p' : DataframeParser) :
  run_shop_code_transition (new_parser d tr) = Some p' →
  ∃ (mask : list bool) (actual : Series),
    length mask = length d ∧
    length actual = length (select mask d) ∧
    df p' = zip_with (fun (r : Row) a => <["actual shop" := a]> (delete "KEY" r))
                     (select mask d) actual ∧
    length (df p') = rank mask (length d) ∧
    (∀ i r, d !! i = Some r → mask !! i = Some true →
       ∃ r', df p' !! rank mask i = Some r' ∧
             r' !! "KEY" = None ∧
             is_Some (r' !! "actual shop") ∧
             (∀ c, c ≠ "actual shop" → c ≠ "KEY" → r' !! c = r !! c) ∧
             dom r' = {["actual shop"]} ∪ (dom r ∖ {["KEY"]})) ∧
    (∀ i i', mask !! i = Some true → i < i' → rank mask i < rank mask i') ∧
    (∀ j r', df p' !! j = Some r' →
       ∃ i r, d !! i = Some r ∧ mask !! i = Some true ∧
              ∀ c, c ≠ "actual shop" → c ≠ "KEY" → r' !! c = r !! c).
Proof.
  intros (key & shop & tk & tv & Hkey & Hshop & Htk & Htv & ->)%run_inv.
  pose proof (item_key_col_length _ _ _ _ _ _ Hkey) as Lkey.
  pose proof (df_get_length _ _ _ Hshop) as Lshop.
  set (mask := keep_mask key shop).
  assert (length mask = length d) as Lmask.
  { unfold mask. rewrite length_keep_mask; lia. }
  assert (length (select mask key) = length (select mask d)) as Lsel
    by (by apply length_select).
  assert (length (select mask shop) = length (select mask key)) as Lsel'
    by (apply length_select; lia).
  set (final := reconciled tk tv (select mask key) (select mask shop)).
  assert (length final = length (select mask d)) as Lfinal.
  { unfold final. rewrite length_reconciled; done. }
  assert (df (run_result d tr key shop tk tv)
          = zip_with (fun (r : Row) a => <["actual shop" := a]> (delete "KEY" r))
                     (select mask d) final) as Hdf.
  { unfold run_result. cbn [df]. fold mask. fold final. unfold df_set.
    by rewrite zip_with_fmap_l. }
  assert (∀ (r : Row) (a : cell),
            let r' := <["actual shop" := a]> (delete "KEY" r) in
            r' !! "KEY" = None ∧ is_Some (r' !! "actual shop") ∧
            (∀ c, c ≠ "actual shop" → c ≠ "KEY" → r' !! c = r !! c) ∧
            dom r' = {["actual shop"]} ∪ (dom r ∖ {["KEY"]})) as Hrow.
  { intros r a r'. unfold r'. split_and!.
    - rewrite lookup_insert_ne by done. apply lookup_delete_eq.
    - rewrite lookup_insert_eq. eauto.
    - intros c H1 H2. rewrite lookup_insert_ne by done. by rewrite lookup_delete_ne.
    - by rewrite dom_insert_L, dom_delete_L. }
  exists mask, final. split_and!; try done.
  - rewrite Hdf, length_zip_with, Lfinal, Nat.min_id.
    rewrite <- Lmask. apply length_select_rank. lia.
  - intros i r Hr Hm.
    pose proof (select_lookup_rank mask d i r Hm Hr) as Hsel.
    assert (is_Some (final !! rank mask i)) as [a Ha].
    { apply lookup_lt_is_Some_2. rewrite Lfinal. by eapply lookup_lt_Some. }
    exists (<["actual shop" := a]> (delete "KEY" r)). split.
    + rewrite Hdf, lookup_zip_with, Hsel. cbn. by rewrite Ha.
    + apply Hrow.
  - intros i i'. apply rank_lt.
  - intros j r' Hr'. rewrite Hdf in Hr'.
    apply lookup_zip_with_Some in Hr' as (r & a & -> & Hr & Ha).
    apply select_lookup_inv in Hr as (i & Hi & Hm).
    exists i, r. split_and!; [done..|]. apply Hrow.
Qed.

Lemma run_shop_code_transition_frame_witness :
  ∃ p', run_shop_code_transition (new_parser sample_frame transition_example) = Some p' ∧
  (∃ (mask : list bool) (actual : Series),
    length mask = length sample_frame ∧
    length actual = length (select mask sample_frame) ∧
    df p' = zip_with (fun (r : Row) a => <["actual shop" := a]> (delete "KEY" r))
                     (select mask sample_frame) actual ∧
    length (df p') = rank mask (length sample_frame) ∧
    (∀ i r, sample_frame !! i = Some r → mask !! i = Some true →
       ∃ r', df p' !! rank mask i = Some r' ∧
             r' !! "KEY" = None ∧
             is_Some (r' !! "actual shop") ∧
             (∀ c, c ≠ "actual shop" → c ≠ "KEY" → r' !! c = r !! c) ∧
             dom r' = {["actual shop"]} ∪ (dom r ∖ {["KEY"]})) ∧
    (∀ i i', mask !! i = Some true → i < i' → rank mask i < rank mask i') ∧
    (∀ j r', df p' !! j = Some r' →
       ∃ i r, sample_frame !! i = Some r ∧ mask !! i = Some true ∧
              ∀ c, c ≠ "actual shop" → c ≠ "KEY" → r' !! c = r !! c)).
Proof.
  destruct (run_shop_code_transition (new_parser sample_frame transition_example))
    as [p'|] eqn:E; [|by vm_compute in E].
  exists p'. split; [done|].
  exact (run_shop_code_transition_frame _ _ _ E).
Defined.

(** C8 (amended): a pass leaves the "Shop Code" column and every column
    other than [KEY] of the transition table as they were and keeps its rows;
    the [KEY] column holds the string form of what it held, so the table is
    unchanged exactly when its keys were strings already. *)
Theorem run_shop_code_transition_casts_key (d tr : DataFrame) (p' : DataframeParser) :
  run_shop_code_transition (new_parser d tr) = Some p' →
  ∃ tk tv : Series,
    df_get "KEY" tr = Some tk ∧ df_get "Shop Code" tr = Some tv ∧
    df_get "KEY" (df_transition p') = Some (astype_str tk) ∧
    df_get "Shop Code" (df_transition p') = Some tv ∧
    df_transition p' = df_set "KEY" (astype_str tk) tr ∧
    length (df_transition p') = length tr ∧
    (∀ c, c ≠ "KEY" → df_get c (df_transition p') = df_get c tr) ∧
    (astype_str tk = tk → df_transition p' = tr).
Proof.
  intros (key & shop & tk & tv & Hkey & Hshop & Htk & Htv & ->)%run_inv.
  pose proof (df_get_length _ _ _ Htk) as Ltk.
  exists tk, tv. unfold run_result. cbn [df_transition].
  assert (length (astype_str tk) = length tr) as L by (by rewrite length_astype_str).
  split_and!; try done.
  - by apply df_get_set_eq.
  - rewrite df_get_set_ne by done. done.
  - by apply length_df_set.
  - intros c Hc. by apply df_get_set_ne.
  - intros ->. clear L Ltk Hkey. unfold df_set. apply mapM_Some_1 in Htk.
    clear Htv. induction Htk as [|r x tr' tk' Hx _ IH]; [done|]. cbn. f_equal; [|apply IH].
    by apply insert_id.
Qed.

Lemma run_shop_code_transition_casts_key_witness :
  ∃ p', run_shop_code_transition (new_parser sample_frame transition_int) = Some p' ∧
  (∃ tk tv : Series,
    df_get "KEY" transition_int = Some tk ∧ df_get "Shop Code" transition_int = Some tv ∧
    df_get "KEY" (df_transition p') = Some (astype_str tk) ∧
    df_get "Shop Code" (df_transition p') = Some tv ∧
    df_transition p' = df_set "KEY" (astype_str tk) transition_int ∧
    length (df_transition p') = length transition_int ∧
    (∀ c, c ≠ "KEY" → df_get c (df_transition p') = df_get c transition_int) ∧
    (astype_str tk = tk → df_transition p' = transition_int)).
Proof.
  destruct (run_shop_code_transition (new_parser sample_frame transition_int))
    as [p'|] eqn:E; [|by vm_compute in E].
  exists p'. split; [done|].
  exact (run_shop_code_transition_casts_key _ _ _ E).
Defined.

(** C8 as stated fails: an integer key is a string after the pass. *)
Lemma transition_untouched_fails :
  ¬ (∀ d tr p', run_shop_code_transition (new_parser d tr) = Some p' →
                transition_untouched tr p').
Proof.
  intros H.
  destruct (run_shop_code_transition
              (new_parser (parse_df [record_matched]) transition_int))
    as [p'|] eqn:E; [|by vm_compute in E].
  destruct (H _ _ _ E) as [HKEY _].
  vm_compute in E. injection E as <-. vm_compute in HKEY. discriminate HKEY.
Qed.



(** * Further properties *)

(** ** Stripping *)

Section strip_facts.
Import Text.

Lemma lstrip_cases s :
  lstrip s = EmptyString ∨ ∃ c t, lstrip s = String c t ∧ isspace c = false.
Proof.
  induction s as [|c s IH]; cbn; [by left|].
  destruct (isspace c) eqn:E; [done|]. right. eauto.
Qed.

Lemma lstrip_nonspace c t : isspace c = false → lstrip (String c t) = String c t.
Proof. intros H. cbn. by rewrite H. Qed.

Lemma rstrip_cons_nonspace c t :
  isspace c = false → ∃ t', rstrip (String c t) = String c t'.
Proof. intros H. cbn. destruct (rstrip t); rewrite ?H; eauto. Qed.

Lemma rstrip_cons c s :
  rstrip (String c s)
  = match rstrip s with
    | EmptyString => if isspace c then EmptyString else String c EmptyString
    | t => String c t
    end.
Proof. done. Qed.

Lemma rstrip_idemp s : rstrip (rstrip s) = rstrip s.
Proof.
  induction s as [|c s IH]; [done|]. rewrite rstrip_cons.
  destruct (rstrip s) as [|c' t'] eqn:E.
  - destruct (isspace c) eqn:Ec; [done|]. rewrite rstrip_cons. cbn. by rewrite Ec.
  - rewrite rstrip_cons, IH. done.
Qed.

Lemma rstrip_last s c t :
  rstrip s = String c t →
  ∃ c', get (String.length (rstrip s) - 1) (rstrip s) = Some c' ∧ isspace c' = false.
Proof.
  revert c t. induction s as [|a s IH]; intros c t; [done|]. rewrite rstrip_cons.
  destruct (rstrip s) as [|c1 t1] eqn:E.
  - destruct (isspace a) eqn:Ea; [done|]. intros _. exists a. by cbn.
  - intros _. destruct (IH c1 t1 eq_refl) as (c' & Hget & Hc').
    exists c'. split; [|done]. cbn in *. by rewrite Nat.sub_0_r in *.
Qed.

Lemma strip_trimmed s : trimmed (strip s).
Proof.
  unfold trimmed, strip.
  destruct (lstrip_cases s) as [->|(c & t & -> & Hc)]; [by left|]. right.
  destruct (rstrip_cons_nonspace c t Hc) as [t' Ht'].
  destruct (rstrip_last _ _ _ Ht') as (c' & Hget & Hc').
  exists c, c'. split_and!; try done. by rewrite Ht'.
Qed.

Lemma strip_idemp s : strip (strip s) = strip s.
Proof.
  unfold strip.
  destruct (lstrip_cases s) as [->|(c & t & -> & Hc)]; [done|].
  destruct (rstrip_cons_nonspace c t Hc) as [t' Ht'].
  rewrite Ht', (lstrip_nonspace _ _ Hc), <- Ht'. apply rstrip_idemp.
Qed.

Lemma rstrip_last_nonspace s c' :
  get (String.length s - 1) s = Some c' → isspace c' = false → rstrip s = s.
Proof.
  intros Hl Hc'. induction s as [|a s IH]; [done|]. rewrite rstrip_cons.
  destruct s as [|b t].
  - cbn in *. injection Hl as ->. by rewrite Hc'.
  - rewrite IH; [done|]. cbn in *. by rewrite Nat.sub_0_r in *.
Qed.

(** Stripping changes nothing exactly on the strings without whitespace at
    either end. *)
Lemma strip_fixed_iff s : strip s = s ↔ trimmed s.
Proof.
  split.
  - intros <-. apply strip_trimmed.
  - intros [->|(c & c' & H0 & Hc & Hl & Hc')]; [done|].
    destruct s as [|a s]; [done|]. cbn in H0. injection H0 as ->.
    unfold strip. rewrite (lstrip_nonspace _ _ Hc). by eapply rstrip_last_nonspace.
Qed.
End strip_facts.

(** ** Extraction *)

Section substring_facts.
Import Text.

Lemma parse_row_lookup_inv record column v :
  parse_row record !! column = Some v →
  ∃ a b, (column, (a, b)) ∈ column_to_str_index_mapping ∧
         v = CStr (strip (slice a b record)).
Proof.
  intros Hv.
  assert (column ∈ dom (parse_row record)) as Hdom by (apply elem_of_dom; eauto).
  rewrite parse_row_dom, elem_of_list_to_set in Hdom.
  apply list_elem_of_fmap in Hdom as ([c [a b]] & Heq & Hin). cbn in Heq. subst c.
  rewrite (parse_row_lookup _ _ _ _ Hin) in Hv. injection Hv as <-. eauto.
Qed.

Lemma substring_app_next a n m s :
  substring a n s +:+ substring (a + n) m s = substring a (n + m) s.
Proof.
  revert a n m. induction s as [|c s IH]; intros a n m.
  - destruct a, n, m; done.
  - destruct a as [|a].
    + destruct n as [|n]; [done|]. simpl. by rewrite <- (IH 0 n m).
    + simpl. apply IH.
Qed.
End substring_facts.

Section extraction_facts.
Import Text.

(** X1: every value of a frame [parse_df] builds is a string that stripping
    leaves unchanged: it is empty, or begins and ends with a character that
    is not whitespace. *)
Theorem parse_df_values_trimmed (raw : list string) (i : nat) (row : Row)
    (column : string) (v : cell) :
  parse_df raw !! i = Some row → row !! column = Some v →
  ∃ s : string, v = CStr s ∧ trimmed s ∧ strip s = s.
Proof.
  rewrite parse_df_lookup. intros Hrow Hv.
  destruct (raw !! i) as [record|]; [|done]. injection Hrow as <-.
  apply parse_row_lookup_inv in Hv as (a & b & _ & ->).
  eexists. split; [done|]. split; [apply strip_trimmed|apply strip_idemp].
Qed.

Lemma parse_df_values_trimmed_witness :
  parse_df [record_matched] !! 0 = Some (parse_row record_matched) ∧
  parse_row record_matched !! "shop_code" = Some (CStr "A12X") ∧
  ∃ s : string, CStr "A12X" = CStr s ∧ trimmed s ∧ strip s = s.
Proof.
  assert (parse_df [record_matched] !! 0 = Some (parse_row record_matched)) as H1
    by (vm_compute; reflexivity).
  assert (parse_row record_matched !! "shop_code" = Some (CStr "A12X")) as H2
    by (vm_compute; reflexivity).
  split; [exact H1|]. split; [exact H2|].
  exact (parse_df_values_trimmed [record_matched] 0 _ "shop_code" _ H1 H2).
Defined.

(** X2: the ranges of the offset table tile the record: the unstripped
    slices, joined in table order, are the first 439 characters of the
    record, none dropped and none read twice. *)
Theorem raw_fields_tile_record (record : string) :
  foldr String.append EmptyString (raw_fields record) = substring 0 439 record.
Proof.
  unfold raw_fields, column_to_str_index_mapping, slice.
  cbn [fmap list_fmap foldr fst snd Nat.sub].
  assert (∀ s, s +:+ EmptyString = s) as Hnil.
  { induction s as [|c s IH]; [done|]. simpl. by rewrite <- IH at 2. }
  rewrite Hnil.
  repeat (rewrite (substring_app_next _ _ _ record) ||
          match goal with
          | |- context [substring ?a ?n record +:+ substring ?b ?m record] =>
              change b with (a + n)
          end).
  done.
Qed.
End extraction_facts.

(** ** The reconciliation pass *)

Section key_facts.
Implicit Types (d tr : DataFrame) (r : Row) (n : option string).

Lemma df_get_cons c r d :
  df_get c (r :: d) = x ← r !! c; s ← df_get c d; Some (x :: s).
Proof. done. Qed.

Lemma series_add_cons x y a b :
  series_add (x :: a) (y :: b) = z ← cell_add x y; s ← series_add a b; Some (z :: s).
Proof. done. Qed.

(** The key column is the column of the rows' composite keys. *)
Lemma item_key_col_mapM d tr mf mt n :
  item_key_col (mkParser d tr mf mt n) = mapM row_key d.
Proof.
  destruct (mapM row_key d) as [key|] eqn:E.
  - apply mapM_Some_1 in E. unfold item_key_col. cbn [df].
    induction E as [|r k d key Hk _ IH]; [done|].
    unfold row_key in Hk. rewrite !df_get_cons.
    destruct (r !! "shop_code") as [x|]; [|done].
    destruct (r !! "location") as [y|]; [|done].
    destruct (r !! "item_id") as [z|]; [|done]. cbn [mbind option_bind] in Hk.
    destruct (cell_add x y) as [xy|] eqn:Hxy; [|done]. cbn [mbind option_bind] in Hk.
    destruct (df_get "shop_code" d) as [shop|]; [|done].
    destruct (df_get "location" d) as [loc|]; [|done].
    destruct (df_get "item_id" d) as [item|]; [|done].
    cbn [mbind option_bind] in *. rewrite series_add_cons, Hxy. cbn [mbind option_bind].
    destruct (series_add shop loc) as [sl|]; [|done]. cbn [mbind option_bind] in *.
    rewrite series_add_cons, Hk. cbn [mbind option_bind]. by rewrite IH.
  - destruct (item_key_col (mkParser d tr mf mt n)) as [key|] eqn:E'; [|done].
    apply item_key_col_rows in E'. congruence.
Qed.
End key_facts.

Section pass_value_facts.
Implicit Types (d tr : DataFrame) (r : Row) (n : option string) (s key shop tk tv : Series).

Lemma run_None_key d tr n :
  mapM row_key d = None → run_shop_code_transition (mkParser d tr "KEY" "Shop Code" n) = None.
Proof.
  intros H. destruct (run_shop_code_transition _) as [p'|] eqn:E; [|done].
  apply run_inv in E as (key & _ & _ & _ & Hkey & _).
  rewrite item_key_col_mapM in Hkey. congruence.
Qed.

Lemma run_mapM d tr n key :
  mapM row_key d = Some key →
  ∃ shop, df_get "shop_code" d = Some shop ∧
    run_shop_code_transition (mkParser d tr "KEY" "Shop Code" n)
    = tk ← df_get "KEY" tr; tv ← df_get "Shop Code" tr;
      Some (run_result d tr key shop tk tv).
Proof.
  intros H. rewrite <- (item_key_col_mapM d tr "KEY" "Shop Code" n) in H.
  destruct (item_key_col_inv _ _ _ _ _ _ H) as (shop & _ & _ & _ & Hshop & _).
  exists shop. split; [done|]. by apply run_eq.
Qed.


Lemma row_key_Some r k :
  row_key r = Some k ↔
  (∃ a b c, r !! "shop_code" = Some (CStr a) ∧ r !! "location" = Some (CStr b) ∧
            r !! "item_id" = Some (CStr c) ∧ k = CStr ((a +:+ b) +:+ c)) ∨
  (∃ a b c, r !! "shop_code" = Some (CInt a) ∧ r !! "location" = Some (CInt b) ∧
            r !! "item_id" = Some (CInt c) ∧ k = CInt (a + b + c)).
Proof.
  unfold row_key. split.
  - destruct (r !! "shop_code") as [[a|a]|]; [| |done];
      (destruct (r !! "location") as [[b|b]|]; [| |done]);
      (destruct (r !! "item_id") as [[c|c]|]; [| |done]); cbn; intros [= <-];
      [left|right]; eauto 10.
  - intros [(a & b & c & -> & -> & -> & ->)|(a & b & c & -> & -> & -> & ->)]; done.
Qed.


Lemma replace_cell_cases pairs x cur :
  replace_cell pairs x cur = cur ∨ replace_cell pairs x cur ∈ pairs.*2.
Proof.
  revert cur. induction pairs as [|[a b] pairs IH]; intros cur; [by left|].
  rewrite replace_cell_cons, fmap_cons. case_bool_decide.
  - destruct (IH b) as [->|?]; right; [left|by right].
  - destruct (IH cur) as [->|?]; [by left|right; by right].
Qed.

(** X7: after a pass every row has an "actual shop" value, and it is the
    row's own shop code or a value of the "Shop Code" column of the
    transition table, never anything else. *)
Theorem actual_shop_is_shop_code_or_table_value (d tr : DataFrame) (p' : DataframeParser) :
  run_shop_code_transition (new_parser d tr) = Some p' →
  ∀ j r', df p' !! j = Some r' →
    ∃ v, r' !! "actual shop" = Some v ∧
      (r' !! "shop_code" = Some v ∨
       ∃ tv, df_get "Shop Code" tr = Some tv ∧ v ∈ tv).
Proof.
  intros (key & shop & tk & tv & Hkey & Hshop & Htk & Htv & ->)%run_inv j r' Hr'.
  destruct (run_result_lookup _ _ _ _ _ _ _ _ _ Hkey Hshop Hr')
    as (r & k & sc & Hr & Hk & Hsc & Hrk & Hrsc & ->).
  eexists. split; [apply lookup_insert_eq|]. cbn zeta.
  rewrite lookup_insert_ne, lookup_delete_ne, Hrsc by done.
  case_bool_decide as Hin; [by left|]. right. exists tv. split; [done|].
  destruct (replace_cell_cases (zip (astype_str tk) tv) (CStr (to_str k)) (CStr (to_str k)))
    as [Heq|Hv].
  - destruct Hin. rewrite Heq. unfold astype_str.
    apply (list_elem_of_fmap_2' _ _ k); [|done]. by eapply list_elem_of_lookup_2.
  - apply list_elem_of_fmap in Hv as ([a b] & -> & Hab). by apply elem_of_zip_r in Hab.
Qed.

Lemma actual_shop_is_shop_code_or_table_value_witness :
  ∃ p', run_shop_code_transition (new_parser sample_frame transition_example) = Some p' ∧
  (∀ j r', df p' !! j = Some r' →
    ∃ v, r' !! "actual shop" = Some v ∧
      (r' !! "shop_code" = Some v ∨
       ∃ tv, df_get "Shop Code" transition_example = Some tv ∧ v ∈ tv)).
Proof.
  destruct (run_shop_code_transition (new_parser sample_frame transition_example))
    as [p'|] eqn:E; [|by vm_compute in E].
  exists p'. split; [done|].
  exact (actual_shop_is_shop_code_or_table_value _ _ _ E).
Defined.

Lemma replace_cell_last pairs i x v cur :
  pairs !! i = Some (x, v) →
  (∀ i' p, i < i' → pairs !! i' = Some p → p.1 ≠ x) →
  replace_cell pairs x cur = v.
Proof.
  revert i cur. induction pairs as [|[a b] pairs IH]; intros i cur Hi Hlast; [done|].
  rewrite replace_cell_cons. destruct i as [|i].
  - injection Hi as -> ->. rewrite bool_decide_eq_true_2 by done.
    apply replace_cell_notin. intros Hin.
    apply list_elem_of_fmap in Hin as (p & -> & Hp).
    apply list_elem_of_lookup in Hp as [i' Hp]. eapply (Hlast (S i')); [lia|done..].
  - eapply IH; [done|]. intros i' p Hlt Hp. eapply (Hlast (S i')); [lia|done].
Qed.
End pass_value_facts.

Section pass_table_facts.
Implicit Types (d tr : DataFrame) (r : Row) (n : option string) (s key shop tk tv : Series).

Lemma length_run_result d tr n key shop tk tv :
  item_key_col (mkParser d tr "KEY" "Shop Code" n) = Some key →
  df_get "shop_code" d = Some shop →
  length (df (run_result d tr key shop tk tv)) = length (select (keep_mask key shop) key).
Proof.
  intros Hkey Hshop.
  pose proof (item_key_col_length _ _ _ _ _ _ Hkey) as Lkey.
  pose proof (df_get_length _ _ _ Hshop) as Lshop.
  unfold run_result. cbn [df]. rewrite length_df_set.
  - rewrite length_fmap. by apply length_select.
  - rewrite length_reconciled, length_fmap.
    + by apply length_select.
    + apply length_select. lia.
Qed.

(** X8: when a key occurs several times in the transition table, the last
    of its rows decides: a row whose key (as a string) is at position [i] of
    [KEY] and at no later position ends with the "Shop Code" value of
    position [i], provided that value is not the composite key of a row of
    the result. *)
Theorem last_pairing_wins (d tr : DataFrame) (p' : DataframeParser) :
  run_shop_code_transition (new_parser d tr) = Some p' →
  ∀ j r' k tk tv i ki v,
    df p' !! j = Some r' → row_key r' = Some k →
    df_get "KEY" tr = Some tk → df_get "Shop Code" tr = Some tv →
    tk !! i = Some ki → to_str ki = to_str k → tv !! i = Some v →
    (∀ i' k', i < i' → tk !! i' = Some k' → to_str k' ≠ to_str k) →
    (∀ j2 r2 k2, df p' !! j2 = Some r2 → row_key r2 = Some k2 → v ≠ CStr (to_str k2)) →
    r' !! "actual shop" = Some v.
Proof.
  intros (key & shop & tk & tv & Hkey & Hshop & Htk & Htv & ->)%run_inv.
  intros j r' k tk' tv' i ki v Hr' Hk Htk' Htv' Hki Hstr Hv Hlast Hfresh. simplify_eq.
  destruct (run_result_lookup _ _ _ _ _ _ _ _ _ Hkey Hshop Hr')
    as (r & k0 & sc & Hr & Hk0 & Hsc & Hrk & Hrsc & ->).
  rewrite row_key_insert_delete, Hrk in Hk. injection Hk as ->.
  rewrite lookup_insert_eq. cbn zeta.
  rewrite (replace_cell_last _ i _ v).
  - rewrite bool_decide_eq_false_2; [done|].
    unfold astype_str. intros (k2 & Hv2 & Hk2)%list_elem_of_fmap.
    apply list_elem_of_lookup in Hk2 as [j2 Hk2].
    assert (is_Some (df (run_result d tr key shop tk tv) !! j2)) as [r2 Hr2].
    { apply lookup_lt_is_Some_2.
      rewrite (length_run_result _ _ None _ _ _ _ Hkey Hshop). by eapply lookup_lt_Some. }
    destruct (run_result_lookup _ _ _ _ _ _ _ _ _ Hkey Hshop Hr2)
      as (r0 & k3 & sc3 & Hr0 & Hk3 & Hsc3 & Hrk3 & Hrsc3 & ->).
    simplify_eq. eapply (Hfresh j2); [done| |done]. by rewrite row_key_insert_delete.
  - rewrite lookup_zip_with. unfold astype_str. rewrite list_lookup_fmap, Hki. cbn.
    rewrite Hv. cbn. by rewrite Hstr.
  - intros i' [a b] Hlt Hp. cbn. rewrite lookup_zip_with in Hp.
    unfold astype_str in Hp. rewrite list_lookup_fmap in Hp.
    destruct (tk !! i') as [k'|] eqn:Hk'; [|done]. cbn in Hp.
    destruct (tv !! i') as [v'|]; [|done]. cbn in Hp. injection Hp as <- <-.
    intros [= Heq]. by eapply Hlast.
Qed.

Lemma last_pairing_wins_witness :
  ∃ p' r',
    run_shop_code_transition (new_parser (parse_df [record_matched]) transition_twice)
    = Some p' ∧
    df p' !! 0 = Some r' ∧
    row_key r' = Some (CStr "A12X1005") ∧
    df_get "KEY" transition_twice = Some [CStr "A12X1005"; CStr "A12X1005"] ∧
    df_get "Shop Code" transition_twice = Some [CStr "001"; CStr "007"] ∧
    r' !! "actual shop" = Some (CStr "007").
Proof.
  destruct (run_shop_code_transition
              (new_parser (parse_df [record_matched]) transition_twice))
    as [p'|] eqn:E; [|by vm_compute in E].
  pose proof (last_pairing_wins _ _ _ E) as H.
  vm_compute in E. injection E as <-.
  eexists _, _. split; [reflexivity|]. split; [reflexivity|].
  split; [by vm_compute|]. split; [by vm_compute|]. split; [by vm_compute|].
  refine (H 0 _ (CStr "A12X1005") [CStr "A12X1005"; CStr "A12X1005"]
            [CStr "001"; CStr "007"] 1 (CStr "A12X1005") (CStr "007")
            eq_refl _ _ _ eq_refl eq_refl eq_refl _ _).
  - by vm_compute.
  - by vm_compute.
  - by vm_compute.
  - intros [|[|i']] k' Hlt Hk'; [lia|lia|done].
  - intros [|j2] r2 k2 Hr2 Hk2; [|done].
    injection Hr2 as <-. vm_compute in Hk2. by injection Hk2 as <-.
Defined.

(** X9: a pass with the transition table as an earlier pass left it (its
    keys cast to strings in place) does what a pass with the original table
    does, on every frame. *)
Theorem run_with_table_left_by_a_pass (d1 d2 tr : DataFrame) (p1 : DataframeParser) :
  run_shop_code_transition (new_parser d1 tr) = Some p1 →
  run_shop_code_transition (new_parser d2 (df_transition p1))
  = run_shop_code_transition (new_parser d2 tr).
Proof.
  intros (key & shop & tk & tv & Hkey & Hshop & Htk & Htv & ->)%run_inv.
  unfold run_result. cbn [df_transition]. unfold new_parser.
  pose proof (df_get_length _ _ _ Htk) as Ltk.
  assert (length (astype_str tk) = length tr) as L by (by rewrite length_astype_str).
  destruct (mapM row_key d2) as [key2|] eqn:Hkey2.
  - destruct (run_mapM d2 tr None key2 Hkey2) as (shop2 & Hshop2 & ->).
    destruct (run_mapM d2 (df_set "KEY" (astype_str tk) tr) None key2 Hkey2)
      as (shop2' & Hshop2' & ->). simplify_eq.
    rewrite df_get_set_eq, df_get_set_ne, Htk, Htv by done. cbn [mbind option_bind].
    f_equal. unfold run_result, reconciled.
    by rewrite astype_str_idemp, df_set_df_set.
  - by rewrite !run_None_key.
Qed.

Lemma run_with_table_left_by_a_pass_witness :
  ∃ p1, run_shop_code_transition (new_parser sample_frame transition_int) = Some p1 ∧
    run_shop_code_transition (new_parser (parse_df [record_digits]) (df_transition p1))
    = run_shop_code_transition (new_parser (parse_df [record_digits]) transition_int).
Proof.
  destruct (run_shop_code_transition (new_parser sample_frame transition_int))
    as [p1|] eqn:E; [|by vm_compute in E].
  exists p1. split; [done|].
  exact (run_with_table_left_by_a_pass _ (parse_df [record_digits]) _ _ E).
Defined.

Lemma occurrences_two (l : Series) j1 j2 x :
  l !! j1 = Some x → l !! j2 = Some x → j1 < j2 → 2 ≤ occurrences x l.
Proof.
  intros H1 H2 Hlt. rewrite <- (take_drop_middle l j1 x H1).
  rewrite occurrences_app, occurrences_cons, decide_True by done.
  assert (x ∈ drop (S j1) l) as Hin.
  { apply list_elem_of_lookup. exists (j2 - S j1). rewrite lookup_drop.
    replace (S j1 + (j2 - S j1)) with j2 by lia. done. }
  apply occurrences_pos in Hin. lia.
Qed.

(** X10: in the frame a pass leaves, a row whose shop code has 4 characters
    shares its composite key with no other row. *)
Theorem four_char_rows_have_unique_keys (d tr : DataFrame) (p' : DataframeParser) :
  run_shop_code_transition (new_parser d tr) = Some p' →
  ∀ j1 j2 r1 r2 sc,
    df p' !! j1 = Some r1 → df p' !! j2 = Some r2 →
    r1 !! "shop_code" = Some sc → String.length (to_str sc) = 4 →
    row_key r1 = row_key r2 → j1 = j2.
Proof.
  intros (key & shop & tk & tv & Hkey & Hshop & Htk & Htv & ->)%run_inv.
  intros j1 j2 r1 r2 sc Hr1 Hr2 Hsc Hlen Hsame.
  destruct (run_result_lookup _ _ _ _ _ _ _ _ _ Hkey Hshop Hr1)
    as (r & k & sc1 & Hr & Hk & Hsc1 & Hrk & Hrsc & ->).
  destruct (run_result_lookup _ _ _ _ _ _ _ _ _ Hkey Hshop Hr2)
    as (r0 & k2 & sc2 & Hr0 & Hk2 & Hsc2 & Hrk2 & Hrsc2 & ->).
  rewrite !row_key_insert_delete, Hrk, Hrk2 in Hsame. injection Hsame as <-.
  rewrite lookup_insert_ne, lookup_delete_ne, Hrsc in Hsc by done. injection Hsc as <-.
  set (mask := keep_mask key shop) in *.
  destruct (select_lookup_pair _ _ _ _ _ _ Hk Hsc1) as (i & Hki & Hsci & Hm).
  apply (keep_mask_true _ _ _ _ _ Hki Hsci) in Hm.
  pose proof (occurrences_select k mask key) as Hle.
  destruct (decide (j1 = j2)) as [|Hne]; [done|]. destruct Hm. split; [|done].
  assert (2 ≤ occurrences k (select mask key)); [|lia].
  destruct (decide (j1 < j2)).
  - by eapply (occurrences_two _ j1 j2).
  - eapply (occurrences_two _ j2 j1); [done..|lia].
Qed.

Lemma four_char_rows_have_unique_keys_witness :
  ∃ p', run_shop_code_transition (new_parser sample_frame transition_example) = Some p' ∧
  (∀ j1 j2 r1 r2 sc,
    df p' !! j1 = Some r1 → df p' !! j2 = Some r2 →
    r1 !! "shop_code" = Some sc → String.length (to_str sc) = 4 →
    row_key r1 = row_key r2 → j1 = j2).
Proof.
  destruct (run_shop_code_transition (new_parser sample_frame transition_example))
    as [p'|] eqn:E; [|by vm_compute in E].
  exists p'. split; [done|].
  exact (four_char_rows_have_unique_keys _ _ _ E).
Defined.

End pass_table_facts.

Section pass_input_facts.
Import Text.
Implicit Types (d tr : DataFrame) (r : Row) (n : option string) (s key shop tk tv : Series).




Lemma row_key_insert_other r c (x : cell) :
  c = "KEY" ∨ c = "actual shop" → row_key (<[c := x]> r) = row_key r.
Proof. intros [->| ->]; unfold row_key; by rewrite !lookup_insert_ne. Qed.

Lemma mapM_row_key_df_set c junk d :
  c = "KEY" ∨ c = "actual shop" → length junk = length d →
  mapM row_key (df_set c junk d) = mapM row_key d.
Proof.
  intros Hc. unfold df_set. revert junk.
  induction d as [|r d IH]; intros [|x junk] Hlen; simplify_eq/=; [done|].
  rewrite (row_key_insert_other r c x Hc). destruct (row_key r); [|done]. cbn.
  f_equal. by apply IH.
Qed.

(** X12: a pass does not read a [KEY] or an "actual shop" column the frame
    already has: whatever such a column holds, the result is the same. *)
Theorem stale_columns_are_not_read (d tr : DataFrame) (c : string) (junk : Series) :
  c = "KEY" ∨ c = "actual shop" → length junk = length d →
  run_shop_code_transition (new_parser (df_set c junk d) tr)
  = run_shop_code_transition (new_parser d tr).
Proof.
  intros Hc Hlen. unfold new_parser.
  pose proof (mapM_row_key_df_set c junk d Hc Hlen) as Hk.
  destruct (mapM row_key d) as [key|] eqn:Hkey.
  - destruct (run_mapM d tr None key Hkey) as (shop & Hshop & ->).
    destruct (run_mapM (df_set c junk d) tr None key Hk) as (shop' & Hshop' & ->).
    rewrite df_get_set_ne in Hshop' by (by destruct Hc as [->| ->] || done).
    simplify_eq.
    destruct (df_get "KEY" tr) as [tk|]; [|done].
    destruct (df_get "Shop Code" tr) as [tv|]; [|done]. cbn. f_equal.
    unfold run_result. f_equal. rewrite select_df_set.
    set (m := keep_mask key shop).
    assert (length (select m junk) = length (select m d)) as L by (by apply length_select).
    assert (length (reconciled tk tv (select m key) (select m shop))
            = length (select m d)) as Lf.
    { pose proof (df_get_length _ _ _ Hshop).
      rewrite <- (item_key_col_mapM d tr "KEY" "Shop Code" None) in Hkey.
      pose proof (item_key_col_length _ _ _ _ _ _ Hkey).
      rewrite length_reconciled; apply length_select; lia. }
    destruct Hc as [->| ->].
    + by rewrite delete_df_set_eq.
    + rewrite delete_df_set_ne by done. apply df_set_df_set. by rewrite length_fmap.
  - by rewrite !run_None_key.
Qed.

Lemma stale_columns_are_not_read_witness :
  ("actual shop" = "KEY" ∨ "actual shop" = "actual shop") ∧
  length sample_shop = length sample_frame ∧
  run_shop_code_transition
    (new_parser (df_set "actual shop" sample_shop sample_frame) transition_example)
  = run_shop_code_transition (new_parser sample_frame transition_example).
Proof.
  assert (length sample_shop = length sample_frame) as H by (vm_compute; reflexivity).
  split; [by right|]. split; [exact H|].
  exact (stale_columns_are_not_read sample_frame transition_example "actual shop"
           sample_shop (or_intror eq_refl) H).
Defined.

End pass_input_facts.

(** ** Paths and file selection *)

Section path_facts.

Lemma append_nil_r s : s +:+ EmptyString = s.
Proof. induction s as [|c s IH]; [done|]. simpl. by rewrite <- IH at 2. Qed.

Lemma append_cons c s t : String c s +:+ t = String c (s +:+ t).
Proof. done. Qed.

Lemma length_append s t : String.length (s +:+ t) = String.length s + String.length t.
Proof. induction s as [|c s IH]; [done|]. rewrite append_cons. cbn. by rewrite IH. Qed.

Lemma append_assoc s t u : (s +:+ t) +:+ u = s +:+ (t +:+ u).
Proof. induction s as [|c s IH]; [done|]. rewrite !append_cons. by rewrite IH. Qed.

Lemma substring_full s : substring 0 (String.length s) s = s.
Proof. induction s as [|c s IH]; [done|]. cbn. by rewrite IH. Qed.

Lemma substring_0_append s t : substring 0 (String.length s) (s +:+ t) = s.
Proof. induction s as [|c s IH]; [by destruct t|]. rewrite append_cons. cbn. by rewrite IH. Qed.

Lemma substring_append_r s t :
  substring (String.length s) (String.length t) (s +:+ t) = t.
Proof.
  induction s as [|c s IH]; [apply substring_full|]. rewrite append_cons. cbn. apply IH.
Qed.

Lemma rfind_cons c x s :
  rfind c (String x s)
  = match rfind c s with
    | Some i => Some (S i)
    | None => if Ascii.eqb x c then Some 0 else None
    end.
Proof. done. Qed.

Lemma rfind_lt c s i : rfind c s = Some i → i < String.length s.
Proof.
  revert i. induction s as [|x s IH]; intros i; [done|]. rewrite rfind_cons.
  destruct (rfind c s) as [j|].
  - intros [= <-]. specialize (IH j eq_refl). cbn. lia.
  - destruct (Ascii.eqb x c); [|done]. intros [= <-]. cbn. lia.
Qed.

Lemma rfind_append c s t :
  rfind c (s +:+ t)
  = match rfind c t with
    | Some j => Some (String.length s + j)
    | None => rfind c s
    end.
Proof.
  induction s as [|x s IH].
  { change (EmptyString +:+ t) with t. by destruct (rfind c t). }
  rewrite append_cons, !rfind_cons, IH.
  destruct (rfind c t) as [j|]; [done|]. done.
Qed.

(** From the last occurrence on, the character occurs at the front only. *)
Lemma rfind_tail c s i :
  rfind c s = Some i → rfind c (substring i (String.length s - i) s) = Some 0.
Proof.
  revert i. induction s as [|x s IH]; intros i; [done|]. rewrite rfind_cons.
  destruct (rfind c s) as [j|] eqn:E.
  - intros [= <-]. cbn. by apply IH.
  - destruct (Ascii.eqb x c) eqn:Ex; [|done]. intros [= <-].
    rewrite Nat.sub_0_r, substring_full, rfind_cons, E, Ex. done.
Qed.

Lemma stem_suffix name : stem name +:+ suffix name = name.
Proof.
  unfold stem, suffix. destruct (rfind "." name) as [i|] eqn:E; [|apply append_nil_r].
  destruct (_ && _); [|apply append_nil_r].
  pose proof (rfind_lt _ _ _ E).
  etrans; [exact (substring_app_next 0 i (String.length name - i) name)|].
  replace (i + (String.length name - i)) with (String.length name) by lia.
  apply substring_full.
Qed.
End path_facts.

Section selection_facts.

Lemma suffix_nonempty name :
  suffix name ≠ EmptyString →
  ∃ i, rfind "." name = Some i ∧ 0 < i ∧ i < String.length name - 1 ∧
       stem name = substring 0 i name ∧
       suffix name = substring i (String.length name - i) name.
Proof.
  unfold suffix, stem. destruct (rfind "." name) as [i|] eqn:E; [|done].
  destruct (_ && _) eqn:Hb; [|done]. intros _. exists i.
  apply andb_prop in Hb as [H1%Nat.ltb_lt H2%Nat.ltb_lt]. done.
Qed.

Lemma stem_suffix_append s e :
  0 < String.length s → rfind "." e = Some 0 → 2 ≤ String.length e →
  stem (s +:+ e) = s ∧ suffix (s +:+ e) = e.
Proof.
  intros Hs He Hlen. unfold stem, suffix.
  rewrite rfind_append, He, Nat.add_0_r, length_append.
  rewrite (proj2 (Nat.ltb_lt 0 (String.length s))) by done.
  rewrite (proj2 (Nat.ltb_lt _ _)) by lia. cbn [andb]. split.
  - apply substring_0_append.
  - replace (String.length s + String.length e - String.length s)
      with (String.length e) by lia.
    apply substring_append_r.
Qed.

Lemma out_name_stem_suffix nm file_out_suffix :
  suffix nm ≠ EmptyString →
  stem (stem nm +:+ file_out_suffix +:+ suffix nm) = stem nm +:+ file_out_suffix ∧
  suffix (stem nm +:+ file_out_suffix +:+ suffix nm) = suffix nm.
Proof.
  intros Hsuf.
  destruct (suffix_nonempty _ Hsuf) as (i & Hi & H0 & H1 & Hstem & Hsuffix).
  rewrite <- append_assoc. apply stem_suffix_append.
  - rewrite length_append, Hstem, length_substring. lia.
  - rewrite Hsuffix. by apply rfind_tail.
  - rewrite Hsuffix, length_substring. lia.
Qed.

(** X14: with an empty [file_out_suffix] and the input's own directory as
    [out_dir], [out_file] is the input path, since stem and suffix make up
    the name: the file is written over itself. *)
Theorem out_file_empty_suffix_is_input (filename : PurePath) :
  out_file (parent filename) filename EmptyString = filename.
Proof.
  unfold out_file. destruct filename as [dir nm]. cbn [parent name]. f_equal.
  change (EmptyString +:+ suffix nm) with (suffix nm). apply stem_suffix.
Qed.

Lemma split_cons sep c s :
  split sep (String c s)
  = if Ascii.eqb c sep then EmptyString :: split sep s
    else match split sep s with
         | t :: ts => String c t :: ts
         | [] => [String c EmptyString]
         end.
Proof. done. Qed.

Lemma split_nonempty sep s : 1 ≤ length (split sep s).
Proof.
  induction s as [|c s IH]; [cbn; lia|]. rewrite split_cons.
  destruct (Ascii.eqb c sep); [cbn; lia|]. destruct (split sep s); cbn in *; lia.
Qed.

Lemma length_split_append sep a b : 2 ≤ length (split sep (a +:+ String sep b)).
Proof.
  induction a as [|c a IH].
  - change (EmptyString +:+ String sep b) with (String sep b).
    rewrite split_cons, Ascii.eqb_refl. pose proof (split_nonempty sep b). cbn. lia.
  - rewrite append_cons, split_cons. destruct (Ascii.eqb c sep); [cbn; lia|].
    destruct (split sep _); cbn in *; lia.
Qed.

(** The last token of a string is the last token of what follows any of its
    separators. *)
Lemma last_split_append sep a b d :
  List.last (split sep (a +:+ String sep b)) d = List.last (split sep b) d.
Proof.
  induction a as [|c a IH].
  - change (EmptyString +:+ String sep b) with (String sep b).
    rewrite split_cons, Ascii.eqb_refl. pose proof (split_nonempty sep b).
    destruct (split sep b); [cbn in *; lia|]. done.
  - rewrite append_cons, split_cons. pose proof (length_split_append sep a b) as L.
    pose proof (split_nonempty sep (a +:+ String sep b)).
    destruct (Ascii.eqb c sep).
    + rewrite <- IH. destruct (split sep _); [cbn in *; lia|]. done.
    + rewrite <- IH. destruct (split sep _) as [|t [|t2 ts]]; cbn in L; try lia. done.
Qed.

Lemma split_no_sep sep s : rfind sep s = None → split sep s = [s].
Proof.
  induction s as [|c s IH]; [done|]. rewrite rfind_cons, split_cons.
  destruct (rfind sep s); [done|]. destruct (Ascii.eqb c sep); [done|].
  intros _. by rewrite IH.
Qed.

Lemma find_files_date_of files_searched date_start date_stop f :
  f ∈ find_files files_searched date_start date_stop →
  f ∈ files_searched ∧
  ∃ date_fmt, date_of f = Some date_fmt ∧
              datetime_leb date_start date_fmt = true ∧
              datetime_leb date_fmt date_stop = true.
Proof.
  rewrite find_files_filter, !list_elem_of_In, filter_In. unfold selected.
  intros [Hin Hsel]. split; [done|]. destruct (date_of f) as [d|]; [|done].
  exists d. apply andb_prop in Hsel as [H1 H2]. by rewrite H1, H2.
Qed.

Lemma find_files_intro files_searched date_start date_stop f date_fmt :
  f ∈ files_searched → date_of f = Some date_fmt →
  datetime_leb date_start date_fmt = true → datetime_leb date_fmt date_stop = true →
  f ∈ find_files files_searched date_start date_stop.
Proof.
  intros Hin Hd H1 H2. rewrite find_files_filter, list_elem_of_In, filter_In.
  split; [by apply list_elem_of_In|]. unfold selected. by rewrite Hd, H1, H2.
Qed.

(** X16: the output written for an input with a suffix, under the default
    [file_out_suffix] ["_parsed"], has no date token and is never selected
    by [find_files]. *)
Theorem parsed_output_is_not_selected (out_dir : string) (filename : PurePath)
    (files_searched : list string) (date_start date_stop : datetime) :
  suffix (name filename) ≠ EmptyString →
  date_of (name (out_file out_dir filename "_parsed")) = None ∧
  name (out_file out_dir filename "_parsed")
    ∉ find_files files_searched date_start date_stop.
Proof.
  intros Hsuf.
  assert (date_of (name (out_file out_dir filename "_parsed")) = None) as Hnone.
  { unfold date_of, out_file. cbn [name].
    destruct (out_name_stem_suffix _ "_parsed" Hsuf) as [-> _].
    change "_parsed" with (String "_" "parsed"). by rewrite last_split_append. }
  split; [done|]. intros (_ & d & Hd & _)%find_files_date_of. congruence.
Qed.

Lemma parsed_output_is_not_selected_witness :
  suffix "Product_descriptions_201707.xlsx" ≠ EmptyString ∧
  date_of (name (out_file "parsed" (mkPath "in" "Product_descriptions_201707.xlsx")
                          "_parsed")) = None ∧
  name (out_file "parsed" (mkPath "in" "Product_descriptions_201707.xlsx") "_parsed")
    ∉ find_files sample_listing (mkDatetime 2017 7 1 0 0 0 0) (mkDatetime 2019 2 1 0 0 0 0).
Proof.
  assert (suffix "Product_descriptions_201707.xlsx" ≠ EmptyString) as H
    by (vm_compute; discriminate).
  split; [exact H|].
  exact (parsed_output_is_not_selected "parsed"
           (mkPath "in" "Product_descriptions_201707.xlsx") sample_listing
           (mkDatetime 2017 7 1 0 0 0 0) (mkDatetime 2019 2 1 0 0 0 0) H).
Defined.

(** X17: a name made of any prefix, an underscore, a token without
    underscore, a dot and a non-empty extension without dot has the token as
    its date token: [find_files] selects it exactly when the token parses to
    a date within the bounds. *)
Theorem dated_name_is_read (pre token ext : string) :
  rfind "_" token = None → rfind "." ext = None → ext ≠ EmptyString →
  let f := pre +:+ String "_" token +:+ String "." ext in
  stem f = pre +:+ String "_" token ∧
  date_of f = strptime_Ym token ∧
  ∀ files_searched date_start date_stop,
    f ∈ find_files files_searched date_start date_stop ↔
    f ∈ files_searched ∧
    ∃ date_fmt, strptime_Ym token = Some date_fmt ∧
                datetime_leb date_start date_fmt = true ∧
                datetime_leb date_fmt date_stop = true.
Proof.
  intros Htok Hext Hne f.
  assert (stem f = pre +:+ String "_" token) as Hstem.
  { unfold f. rewrite <- append_assoc. apply stem_suffix_append.
    - rewrite length_append. cbn. lia.
    - by rewrite rfind_cons, Hext.
    - destruct ext; [done|]. cbn. lia. }
  assert (date_of f = strptime_Ym token) as Hdate.
  { unfold date_of. rewrite Hstem, last_split_append, split_no_sep by done. done. }
  split_and!; try done. intros files_searched date_start date_stop. split.
  - intros [Hin (d & Hd & H1 & H2)]%find_files_date_of. rewrite Hdate in Hd. eauto.
  - intros [Hin (d & Hd & H1 & H2)]. eapply find_files_intro; try done. congruence.
Qed.

Lemma dated_name_is_read_witness :
  rfind "_" "201707" = None ∧ rfind "." "xlsx" = None ∧ "xlsx" ≠ EmptyString ∧
  let f := "Product_descriptions" +:+ String "_" "201707" +:+ String "." "xlsx" in
  stem f = "Product_descriptions" +:+ String "_" "201707" ∧
  date_of f = strptime_Ym "201707" ∧
  ∀ files_searched date_start date_stop,
    f ∈ find_files files_searched date_start date_stop ↔
    f ∈ files_searched ∧
    ∃ date_fmt, strptime_Ym "201707" = Some date_fmt ∧
                datetime_leb date_start date_fmt = true ∧
                datetime_leb date_fmt date_stop = true.
Proof.
  assert ("xlsx" ≠ EmptyString) as H by discriminate.
  split; [reflexivity|]. split; [reflexivity|]. split; [exact H|].
  exact (dated_name_is_read "Product_descriptions" "201707" "xlsx" eq_refl eq_refl H).
Defined.
End selection_facts.

(** ** The batch *)

Section main_facts.
Implicit Types (d tr : DataFrame) (tk tv : Series).

Lemma run_cast_table d tr tk :
  df_get "KEY" tr = Some tk →
  run_shop_code_transition (new_parser d (df_set "KEY" (astype_str tk) tr))
  = run_shop_code_transition (new_parser d tr).
Proof.
  intros Htk. unfold new_parser.
  pose proof (df_get_length _ _ _ Htk) as Ltk.
  assert (length (astype_str tk) = length tr) as L by (by rewrite length_astype_str).
  destruct (mapM row_key d) as [key|] eqn:Hkey.
  - destruct (run_mapM d tr None key Hkey) as (shop & Hshop & ->).
    destruct (run_mapM d (df_set "KEY" (astype_str tk) tr) None key Hkey)
      as (shop' & Hshop' & ->). simplify_eq.
    rewrite df_get_set_eq, df_get_set_ne, Htk by done. cbn [mbind option_bind].
    destruct (df_get "Shop Code" tr) as [tv|]; [|done]. cbn [mbind option_bind].
    f_equal. unfold run_result, reconciled.
    by rewrite astype_str_idemp, df_set_df_set.
  - by rewrite !run_None_key.
Qed.

Lemma table_state_run tr cur d :
  table_state tr cur →
  run_shop_code_transition (new_parser d cur) = run_shop_code_transition (new_parser d tr).
Proof. intros [->|(tk & Htk & ->)]; [done|]. by apply run_cast_table. Qed.

Lemma run_table tr d p :
  run_shop_code_transition (new_parser d tr) = Some p →
  ∃ tk, df_get "KEY" tr = Some tk ∧ df_transition p = df_set "KEY" (astype_str tk) tr.
Proof. intros (key & shop & tk & tv & _ & _ & Htk & _ & ->)%run_inv. eauto. Qed.

Lemma foldl_None {A B} (g : A → B → option A) (l : list B) :
  foldl (fun acc x => a ← acc; g a x) None l = None.
Proof. induction l as [|x l IH]; [done|]. apply IH. Qed.

Lemma main_step_spec dir_in dir_out load file_out_suffix tr written cur f st' :
  table_state tr cur →
  main_step dir_in dir_out load file_out_suffix (written, cur) f = Some st' →
  ∃ raw p tk,
    load f = Some raw ∧
    run_shop_code_transition (new_parser (parse_df raw) tr) = Some p ∧
    df_get "KEY" tr = Some tk ∧
    st' = (written ++ [(out_file dir_out (mkPath dir_in f) file_out_suffix, df p)],
           df_set "KEY" (astype_str tk) tr).
Proof.
  intros Hst. unfold main_step, run.
  destruct (load f) as [raw|]; [|done]. cbn [mbind option_bind].
  change (with_df (parse_df raw) (new_parser [] cur)) with (new_parser (parse_df raw) cur).
  rewrite (table_state_run tr cur _ Hst).
  destruct (run_shop_code_transition (new_parser (parse_df raw) tr)) as [p|] eqn:Hp; [|done].
  cbn [mbind option_bind]. intros [= <-].
  destruct (run_table _ _ _ Hp) as (tk & Htk & ->). eauto 10.
Qed.

Lemma main_loop dir_in dir_out load file_out_suffix tr files written cur written' tr' :
  table_state tr cur →
  foldl (fun acc f => state ← acc; main_step dir_in dir_out load file_out_suffix state f)
        (Some (written, cur)) files = Some (written', tr') →
  ∃ outs,
    written' = written ++ outs ∧
    Forall2 (fun f (o : PurePath * DataFrame) =>
               ∃ raw p, load f = Some raw ∧
                 run_shop_code_transition (new_parser (parse_df raw) tr) = Some p ∧
                 o = (out_file dir_out (mkPath dir_in f) file_out_suffix, df p))
            files outs ∧
    (files = [] → tr' = cur) ∧
    (files ≠ [] → ∃ tk, df_get "KEY" tr = Some tk ∧ tr' = df_set "KEY" (astype_str tk) tr).
Proof.
  revert written cur. induction files as [|f files IH]; intros written cur Hst Hfold.
  - cbn in Hfold. injection Hfold as <- <-. exists []. rewrite app_nil_r.
    split_and!; [done|constructor|done|done].
  - cbn [foldl mbind option_bind] in Hfold.
    destruct (main_step dir_in dir_out load file_out_suffix (written, cur) f)
      as [[w1 t1]|] eqn:Hstep.
    2:{ by rewrite foldl_None in Hfold. }
    destruct (main_step_spec _ _ _ _ _ _ _ _ _ Hst Hstep)
      as (raw & p & tk & Hload & Hp & Htk & [= -> ->]).
    apply IH in Hfold as (outs & -> & HF & Hnil & Hcons).
    2:{ right. eauto. }
    eexists (_ :: outs). split_and!.
    + by rewrite <- app_assoc.
    + constructor; [|done]. eauto.
    + done.
    + intros _. destruct files as [|g files]; [|by apply Hcons].
      exists tk. split; [done|]. by apply Hnil.
Qed.

(** X19: when [main] completes, it has handled the files [find_files]
    selects, in listing order, and the frame written for each is the one a
    pass with the table as first read gives on that file alone, although the
    loop shares one table that the first pass rewrites; the table ends with
    its keys cast to strings once a file has been processed, and untouched
    otherwise. *)
Theorem main_processes_each_file_alone (dir_in dir_out : string)
    (listing : list string) (load : string → option (list string))
    (date_start date_stop : string) (tr : DataFrame) (file_out_suffix : string)
    (written : list (PurePath * DataFrame)) (tr' : DataFrame) :
  main dir_in dir_out listing load date_start date_stop tr file_out_suffix
    = Some (written, tr') →
  ∃ start stop,
    strptime_Ym date_start = Some start ∧ strptime_Ym date_stop = Some stop ∧
    Forall2 (fun f (o : PurePath * DataFrame) =>
               ∃ raw p, load f = Some raw ∧
                 run_shop_code_transition (new_parser (parse_df raw) tr) = Some p ∧
                 o = (out_file dir_out (mkPath dir_in f) file_out_suffix, df p))
            (find_files listing start stop) written ∧
    (find_files listing start stop = [] → tr' = tr) ∧
    (find_files listing start stop ≠ [] →
     ∃ tk, df_get "KEY" tr = Some tk ∧ tr' = df_set "KEY" (astype_str tk) tr).
Proof.
  unfold main.
  destruct (strptime_Ym date_start) as [start|]; [|done].
  destruct (strptime_Ym date_stop) as [stop|]; [|done]. cbn [mbind option_bind].
  intros Hfold. apply (main_loop _ _ _ _ tr) in Hfold as (outs & -> & HF & Hnil & Hcons);
    [|by left].
  exists start, stop. split_and!; done.
Qed.

Lemma main_processes_each_file_alone_witness :
  ∃ written tr',
    main "in" "parsed" sample_listing sample_load "201707" "201902" transition_int "_parsed"
      = Some (written, tr') ∧
    ∃ start stop,
      strptime_Ym "201707" = Some start ∧ strptime_Ym "201902" = Some stop ∧
      Forall2 (fun f (o : PurePath * DataFrame) =>
                 ∃ raw p, sample_load f = Some raw ∧
                   run_shop_code_transition (new_parser (parse_df raw) transition_int)
                     = Some p ∧
                   o = (out_file "parsed" (mkPath "in" f) "_parsed", df p))
              (find_files sample_listing start stop) written ∧
      (find_files sample_listing start stop = [] → tr' = transition_int) ∧
      (find_files sample_listing start stop ≠ [] →
       ∃ tk, df_get "KEY" transition_int = Some tk ∧
             tr' = df_set "KEY" (astype_str tk) transition_int).
Proof.
  destruct (main "in" "parsed" sample_listing sample_load "201707" "201902"
                 transition_int "_parsed") as [[written tr']|] eqn:E;
    [|by vm_compute in E].
  exists written, tr'. split; [done|].
  exact (main_processes_each_file_alone _ _ _ _ _ _ _ _ _ _ E).
Defined.

End main_facts.
